(* ===== verification/_CoqProject ===== *)
-Q . S2P
TodoPrelude.v
JsValue.v
UnitTest.v
Template.v
View.v
Dom.v
Intent.v
Application.v
Refinement.v
