(* ===== verification/TodoPrelude.v ===== *)
(** * A verification development of todo-vanilla-es2015 (src/app.js)

    ** The program

    src/app.js is a TODO-list widget in one file.  Its parts:
    - the model, one shared object [{text, todos}] (lines 29-32);
    - the template engine [e.html], a tag for template literals
      (lines 35-56), with its self-test [e.test];
    - the view: [templateBody] (lines 144-177), one template literal
      nesting a row template per item and a footer, [view.html] and
      [view.render], which assigns the markup to the container's
      [innerHTML] (lines 15-26), with its self-test [view.test];
    - the unit-test library [test] (lines 59-64);
    - the intent: seven event handlers that read the DOM, mutate the
      model and call [view.render] (lines 68-103), and [intent.listen],
      whose 100 ms interval attaches them to every element present
      (lines 105-124);
    - [main]: the self-tests in development mode, the first render,
      [listen] (lines 129-140).
    A user action fires a DOM event; its handler, if attached, mutates
    the model and, for a change of the list, re-renders the whole
    container from scratch, destroying every element and its listeners
    until the next tick.

    ** Files, in dependency order
    - [TodoPrelude] (this file): the [todo_scope], the hint databases
      [todo] and [todo_str], and the string and list lemmas the
      components share: concatenation, prefix stripping, [span],
      filtering, decimal numerals ([show_nat], [parse_nat]), [imap] from
      an offset.
    - [JsValue]: the ECMAScript the program relies on: a value type
      [jsval], [ToString], [+], [join], [indexOf], truthiness, and sparse
      arrays ([list (option A)], a hole being [None]) with [push]
      (throwing at the [2^32 - 1] length bound), [splice(k, 1)], index
      assignment (growing the array with holes past its end) and the
      conversion of a [data-index] string to an index.
    - [UnitTest]: [test.ok/equal/notEqual] in a log-and-throw monad.
    - [Template]: [e.html] as the code computes it, [strings[i]] and
      [strings.slice(-1)[0]] reading [undefined] out of range, and [e.test].
    - [View]: the [Model] record, [templateBody] as three nested [e.html]
      literals, [view.html], [view.test], and [markup], the markup spelled
      out.
    - [Dom]: the DOM subtree the handlers read ([Dom], [Row]), the
      browser's parser on the HTML fragment the template is written for
      ([parse_markup], decoding the character references an escaper
      writes and stripping line feeds from the input's value),
      [view.render] as [render], the DOM the spec
      promises ([dom_of_model]), and the interface class [RenderSound]
      between the view and the intent.
    - [Intent]: the application state [App] (model, DOM, whether the
      listeners are attached, alerts), one function per handler,
      [listen]'s tick, the browser's [dispatch] of user actions
      ([Event]), [main], and the invariant [app_inv] with its
      preservation by every handler, proved in a section over any
      [render] satisfying [RenderSound].
    - [Application]: the handlers instantiated with [Dom.render], the
      states reachable from [main] ([safe_reachable], an inductive step
      relation), and the properties of the running program.
    - [Refinement]: the spec's abstract TODO list ([TodoList],
      [apply_op]: set the text, append, delete or edit at a position) and
      the simulation: every handled action of a reachable state is one
      abstract operation on an existing item ([step_refines]).

    ** What is proved
    - Template: [e.html] equals an independent reference, the
      interleaving of the literal's parts with [ToString] of its values
      (an array joined without separator, [undefined] elements empty),
      on every input a template literal produces (equivalence).
    - View: [view.html] is the spelled-out markup; the footer's
      singular, plural and empty cases.
    - Render: the parser recovers [dom_of_model m] from [view.html m] for
      every model whose strings carry no markup character (roundtrip);
      for every text holding a quote it does not (the view does not
      escape).
    - Intent: every handler keeps the invariant; in every reachable
      state the model has no hole and the [j]-th row shows the [j]-th
      item with index [j] on its label and button, so no handler ever
      sees a stale index; delete removes the clicked item, an edit
      replaces exactly the edited item, Enter appends the input, a
      checkbox click changes no item, Enter or Escape ends an edit;
      after a tick, Enter is handled (liveness).
    - Refinement: the program implements the abstract TODO list, its
      positional operations always addressing existing items.
    - Defects the model exposes, each for a whole family of runs: for
      every index [k >= 1], an item holding the markup of a row end and a
      row start labelled [k] forges a second row, whose edit writes
      [todos[k]] and grows the array by [k - 1] holes; in every reachable
      state between a render and the next tick, typed text and the key
      released with it never reach [model.text], and the next render
      puts [model.text] back in the input box.

    ** Bounds and fuel
    Numbers are [nat]: indices and lengths are non-negative integers
    below [2^32], the array bound, which [push] enforces as JavaScript
    does; [array_index] compares against it in [N] so that it computes.
    [parse_rows] takes the markup's length as fuel: each row is at least
    one character, so the fuel always suffices, which
    [render_reflects_model] proves rather than assumes.

    ** Plan for the development's next steps
    - Decidable equality ([EqDecision]) for [Row], [Dom], [Event], so
      that states can be compared by [decide].
    - Focus: the input box loses focus on every re-render; modelling the
      focused element would say which keystrokes go where.
    - The [push] bound at [2^32 - 1] as a claim of its own (its witness
      needs a symbolic array of that length).

    ** Not modelled
    The [$] shorthand and the creation of the container (lines 7-12:
    browser calls); the style block is only a literal of the markup;
    focus (a label has the focus exactly when it is editable); time (the
    interval's ticks interleave freely with user actions); the HTML
    parser beyond the template's fragment (markup the template does not
    write, such as a tag inside a label or a character reference other
    than the five an escaper writes, makes [render] return [None]
    instead of guessing the browser's tree); strings are 8-bit,
    JavaScript's are UTF-16. *)

From stdpp Require Import base list strings.
From Stdlib Require Import Ascii DecimalString DecimalNat.

(** ** Characters and strings

    JavaScript strings are modelled as Rocq [string]s (8-bit
    characters).  The markup produced by the program is plain ASCII; the
    user's text is an arbitrary [string]. *)

Declare Scope todo_scope.
Delimit Scope todo_scope with todo.


(** stdpp declares [String.append] [simpl never]; the proofs below
    compute with it. *)
#[global] Arguments String.append : simpl nomatch.


Definition chr (n : nat) : ascii := Ascii.ascii_of_nat n.
Definition ch_nl : ascii := chr 10.
Definition ch_cr : ascii := chr 13.
Definition ch_nul : ascii := chr 0.
Definition ch_dquote : ascii := chr 34.
Definition ch_amp : ascii := chr 38.
Definition ch_squote : ascii := chr 39.
Definition ch_lt : ascii := chr 60.

Open Scope todo_scope.

(** A one-character string. *)
Definition char_str (c : ascii) : string := String c EmptyString.

(** [str_concat l] is [l.join('')] on an array of strings. *)
Definition str_concat (l : list string) : string := foldr String.append EmptyString l.

(** [strip_prefix p s] is [Some r] when [s = p +:+ r]. *)
Fixpoint strip_prefix (p s : string) : option string :=
  match p, s with
  | EmptyString, _ => Some s
  | String a p', String b s' => if ascii_dec a b then strip_prefix p' s' else None
  | String _ _, EmptyString => None
  end.

(** [span p s] splits [s] before its first character that fails [p]. *)
Fixpoint span (p : ascii -> bool) (s : string) : string * string :=
  match s with
  | EmptyString => (EmptyString, EmptyString)
  | String a s' =>
      if p a then let '(t, r) := span p s' in (String a t, r) else (EmptyString, s)
  end.

Fixpoint str_forallb (p : ascii -> bool) (s : string) : bool :=
  match s with
  | EmptyString => true
  | String a s' => p a && str_forallb p s'
  end.

(** The characters of [s] that satisfy [p]. *)
Fixpoint str_filter (p : ascii -> bool) (s : string) : string :=
  match s with
  | EmptyString => EmptyString
  | String a s' => if p a then String a (str_filter p s') else str_filter p s'
  end.

(** The first character of a string, if any. *)
Definition str_head (s : string) : option ascii :=
  match s with EmptyString => None | String a _ => Some a end.

Definition ascii_eqb (a b : ascii) : bool := bool_decide (a = b).

(** [imap] with the index starting at [i]. *)
Fixpoint imap_from {A B} (f : nat -> A -> B) (i : nat) (l : list A) : list B :=
  match l with [] => [] | x :: l' => f i x :: imap_from f (S i) l' end.

(** ** Decimal numerals *)

(** [show_nat n] is JavaScript's [String(n)] on a non-negative integer. *)
Definition show_nat (n : nat) : string := NilEmpty.string_of_uint (Nat.to_uint n).

Definition is_digit (a : ascii) : bool :=
  bool_decide (48 <= nat_of_ascii a <= 57)%nat.

(** ** Automation *)

Create HintDb todo discriminated.
Create Rewrite HintDb todo_str.

(** ** Generic lemmas on strings *)

Lemma append_nil_r (s : string) : s +:+ EmptyString = s.
Proof. induction s as [|a s IH]; simpl; [done | by f_equal]. Qed.

Lemma append_assoc (s1 s2 s3 : string) : s1 +:+ (s2 +:+ s3) = (s1 +:+ s2) +:+ s3.
Proof. induction s1 as [|a s1 IH]; simpl; [done | by f_equal]. Qed.

Lemma length_append (s1 s2 : string) :
  String.length (s1 +:+ s2) = (String.length s1 + String.length s2)%nat.
Proof. induction s1 as [|a s1 IH]; simpl; [done | by f_equal]. Qed.

Lemma str_concat_app (l1 l2 : list string) :
  str_concat (l1 ++ l2) = str_concat l1 +:+ str_concat l2.
Proof.
  induction l1 as [|s l1 IH]; simpl; [done|].
  unfold str_concat in *. simpl. by rewrite IH, append_assoc.
Qed.

Lemma append_nil_l (s : string) : EmptyString +:+ s = s.
Proof. done. Qed.

Lemma str_concat_nil : str_concat [] = EmptyString.
Proof. done. Qed.

Lemma str_concat_cons (s : string) (l : list string) :
  str_concat (s :: l) = s +:+ str_concat l.
Proof. done. Qed.

#[export] Hint Rewrite append_nil_r append_nil_l str_concat_nil str_concat_app str_concat_cons : todo_str.
#[export] Hint Rewrite <- append_assoc : todo_str.

Lemma strip_prefix_app (p s : string) : strip_prefix p (p +:+ s) = Some s.
Proof.
  induction p as [|a p IH]; simpl; [done|].
  by destruct (ascii_dec a a).
Qed.

Lemma strip_prefix_Some (p s r : string) : strip_prefix p s = Some r -> s = p +:+ r.
Proof.
  revert s. induction p as [|a p IH]; intros [|b s]; simpl; try congruence.
  destruct (ascii_dec a b); [subst|done]. intros H. by rewrite (IH _ H).
Qed.

Lemma span_app (p : ascii -> bool) (t r : string) :
  str_forallb p t = true -> (forall a, str_head r = Some a -> p a = false) ->
  span p (t +:+ r) = (t, r).
Proof.
  intros Ht Hr. induction t as [|a t IH]; simpl in *.
  - destruct r as [|b r]; simpl; [done|]. by rewrite (Hr b eq_refl).
  - apply andb_prop in Ht as [-> Ht]. by rewrite IH.
Qed.

Lemma str_forallb_app (p : ascii -> bool) (s1 s2 : string) :
  str_forallb p (s1 +:+ s2) = str_forallb p s1 && str_forallb p s2.
Proof. induction s1 as [|a s1 IH]; simpl; [done|]. by rewrite IH, andb_assoc. Qed.

#[export] Hint Rewrite str_forallb_app : todo_str.

(** ** Decimal numerals: digits only, and the parse inverts the print *)

Lemma show_nat_digits (n : nat) : str_forallb is_digit (show_nat n) = true.
Proof.
  unfold show_nat. generalize (Nat.to_uint n) as d.
  induction d; simpl; rewrite ?IHd; reflexivity.
Qed.

Definition parse_nat (s : string) : option nat :=
  Nat.of_uint <$> NilEmpty.uint_of_string s.

Lemma parse_show_nat (n : nat) : parse_nat (show_nat n) = Some n.
Proof.
  unfold parse_nat, show_nat. rewrite NilEmpty.usu. simpl. by rewrite Unsigned.of_to.
Qed.

Lemma show_nat_nonempty (n : nat) : show_nat n <> EmptyString.
Proof.
  intros H. pose proof (parse_show_nat n) as Hp. rewrite H in Hp.
  simpl in Hp. injection Hp as <-. by compute in H.
Qed.

Lemma imap_from_shift {A B} (f : nat -> A -> B) (i : nat) (l : list A) :
  imap (fun j x => f (i + j) x) l = imap_from f i l.
Proof.
  revert i. induction l as [|x l IH]; intros i; [done|].
  rewrite imap_cons. simpl. rewrite Nat.add_0_r. f_equal.
  rewrite <- IH. apply imap_ext. intros j y _. simpl. by rewrite Nat.add_succ_r.
Qed.

Lemma imap_imap_from {A B} (f : nat -> A -> B) (l : list A) : imap f l = imap_from f 0 l.
Proof. apply (imap_from_shift f 0 l). Qed.

Lemma str_forallb_impl (p q : ascii -> bool) (s : string) :
  (forall a, p a = true -> q a = true) -> str_forallb p s = true -> str_forallb q s = true.
Proof.
  intros Hpq. induction s as [|a s IH]; simpl; [done|].
  intros [Ha Hs]%andb_prop. by rewrite Hpq, IH.
Qed.

Lemma str_filter_app (p : ascii -> bool) (s t : string) :
  str_filter p (s +:+ t) = str_filter p s +:+ str_filter p t.
Proof. induction s as [|a s IH]; simpl; [done|]. destruct (p a); simpl; by rewrite IH. Qed.

Lemma str_forallb_filter (p q : ascii -> bool) (s : string) :
  str_forallb q s = true -> str_forallb q (str_filter p s) = true.
Proof.
  induction s as [|a s IH]; simpl; [done|]. intros [Ha Hs]%andb_prop.
  destruct (p a); simpl; rewrite ?Ha; auto.
Qed.

(** A [span] over a string holding a character that fails [p] stops
    inside it, at such a character. *)
Lemma span_splits_inside (p : ascii -> bool) (t r : string) :
  str_forallb p t = false ->
  exists a t', t = (span p (t +:+ r)).1 +:+ String a t' /\ p a = false.
Proof.
  induction t as [|a t IH]; simpl; [done|].
  destruct (p a) eqn:Ha; simpl.
  - intros Ht. destruct (IH Ht) as (b & t' & Et & Hb).
    destruct (span p (t +:+ r)) as [u w]. simpl in *. exists b, t'. by rewrite <- Et.
  - intros _. by exists a, t.
Qed.
