(* ===== verification/JsValue.v ===== *)
(** * The JavaScript values and built-ins src/app.js relies on

    The program needs only a small fragment of ECMAScript: the string
    conversion [ToString], the [+] operator on strings and numbers,
    [Array.prototype.join], [Array.prototype.indexOf] on numbers, the
    truthiness of a conditional, and the array operations of
    [model.todos]: [push], [splice(index, 1)] and the assignment
    [todos[index] = x].  Numbers are the non-negative integers the program
    produces (indices, lengths, key codes); arrays of [model.todos] may be
    sparse, a hole being [None]. *)

From stdpp Require Import base list strings.
From S2P Require Import TodoPrelude.

Module JsValue.

#[warnings="-register-all"]
Inductive jsval :=
| JUndef
| JStr (s : string)
| JNum (n : nat)
| JNaN
| JArr (a : list jsval).

(** [ToString] ([String(v)]); an array prints as [a.join(',')]. *)
Fixpoint to_string (v : jsval) : string :=
  match v with
  | JUndef => "undefined"
  | JStr s => s
  | JNum n => show_nat n
  | JNaN => "NaN"
  | JArr a =>
      (fix go (l : list jsval) : string :=
         match l with
         | [] => EmptyString
         | [x] => match x with JUndef => EmptyString | _ => to_string x end
         | x :: l' =>
             (match x with JUndef => EmptyString | _ => to_string x end)
               +:+ "," +:+ go l'
         end) a
  end.

(** [sep]-separated concatenation, the core of [Array.prototype.join]. *)
Fixpoint join_strs (sep : string) (l : list string) : string :=
  match l with
  | [] => EmptyString
  | [s] => s
  | s :: l' => s +:+ sep +:+ join_strs sep l'
  end.

(** [join] reads [undefined] (and a hole) as the empty string. *)
Definition join_elem (v : jsval) : string :=
  match v with JUndef => EmptyString | _ => to_string v end.

(** [a.join(sep)]. *)
Definition join (sep : string) (a : list jsval) : string :=
  join_strs sep (join_elem <$> a).

(** [ToPrimitive]: an array becomes its string form. *)
Definition to_primitive (v : jsval) : jsval :=
  match v with JArr _ => JStr (to_string v) | _ => v end.

(** The [+] operator: string concatenation as soon as one side is a
    string after [ToPrimitive], numeric addition otherwise
    ([ToNumber(undefined)] is [NaN]). *)
Definition js_add (a b : jsval) : jsval :=
  match to_primitive a, to_primitive b with
  | JStr s, pb => JStr (s +:+ to_string pb)
  | pa, JStr s => JStr (to_string pa +:+ s)
  | JNum x, JNum y => JNum (x + y)
  | _, _ => JNaN
  end.

(** [ToBoolean], used by [c ? x : y]. *)
Definition truthy (v : jsval) : bool :=
  match v with
  | JUndef | JNaN => false
  | JStr s => bool_decide (s <> EmptyString)
  | JNum n => bool_decide (n <> 0)
  | JArr _ => true
  end.

Definition is_array (v : jsval) : bool :=
  match v with JArr _ => true | _ => false end.

(** [l.indexOf(x)] on an array of numbers: the first position, or -1. *)
Fixpoint index_of (l : list nat) (x : nat) : Z :=
  match l with
  | [] => (-1)%Z
  | y :: l' =>
      if bool_decide (y = x) then 0%Z
      else match index_of l' x with (-1)%Z => (-1)%Z | i => (i + 1)%Z end
  end.

(** ** Sparse arrays *)

(** [2^32 - 1]: the largest length of an array; array indices are the
    integers below it. *)
Definition max_array_length : N := 4294967295.

(** An array whose elements are of type [A]; [None] is a hole. *)
Abbreviation jsarray A := (list (option A)) (only parsing).

Section Arrays.
Context {A : Type}.

(** [a.push(x)]: an array's length stays below [2^32], so a push onto
    an array of length [2^32 - 1] throws a [RangeError] ([None]); the
    element it stores first under the key ["4294967295"] is a named
    property, not an element. *)
Definition push (a : jsarray A) (x : A) : option (jsarray A) :=
  if bool_decide (N.of_nat (length a) < max_array_length)%N then Some (a ++ [Some x]) else None.

(** [a.splice(start, 1)] for a non-negative [start]: the start is clamped
    to the length, so that nothing is removed from [length a] on. *)
Definition splice1 (a : jsarray A) (start : nat) : jsarray A :=
  if bool_decide (start < length a) then take start a ++ drop (S start) a else a.

(** [a[k] = x] for an array index [k]: in range it replaces the
    element; beyond the end it grows the array, leaving holes. *)
Definition set_index (a : jsarray A) (k : nat) (x : A) : jsarray A :=
  if bool_decide (k < length a) then <[k := Some x]> a
  else a ++ replicate (k - length a) None ++ [Some x].

End Arrays.

(** [ToIntegerOrInfinity(ToNumber(s))] on a string of decimal digits (the
    empty string is 0); every [data-index] of the markup is such a
    string, see [Dom]. *)
Definition to_integer_digits (s : string) : nat := default 0 (parse_nat s).

(** A property key [s] of an array is an array index when it is the
    canonical numeral of an integer below [2^32 - 1]. *)
Definition array_index (s : string) : option nat :=
  match parse_nat s with
  | Some n => if bool_decide (show_nat n = s /\ (N.of_nat n < max_array_length)%N) then Some n else None
  | None => None
  end.

(** [a[key] = x] with a string key: an array index writes an element;
    any other key creates a named property, which [length], [map] and
    [join] do not see. *)
Definition set_prop {A} (a : jsarray A) (key : string) (x : A) : jsarray A :=
  match array_index key with Some k => set_index a k x | None => a end.

(** ** Lemmas *)

Lemma join_strs_cons (sep s : string) (l : list string) :
  l <> [] -> join_strs sep (s :: l) = s +:+ sep +:+ join_strs sep l.
Proof. by destruct l. Qed.

Lemma join_strs_empty_sep (l : list string) : join_strs EmptyString l = str_concat l.
Proof.
  induction l as [|s l IH]; [done|]. destruct l as [|s' l].
  - simpl. by rewrite append_nil_r.
  - rewrite join_strs_cons, IH by done. done.
Qed.

(** [a.join('')] on strings is their concatenation. *)
Lemma join_empty_strs (l : list string) :
  join EmptyString (JStr <$> l) = str_concat l.
Proof.
  unfold join. rewrite <- list_fmap_compose, (list_fmap_ext _ id), list_fmap_id by done.
  apply join_strs_empty_sep.
Qed.

Lemma js_add_str_l (s : string) (v : jsval) :
  js_add (JStr s) v = JStr (s +:+ to_string (to_primitive v)).
Proof. done. Qed.

Lemma index_of_enter_esc (k : nat) :
  index_of [13; 27] k <> (-1)%Z <-> k = 13 \/ k = 27.
Proof.
  simpl. repeat case_bool_decide; subst; split; intros; try done; lia.
Qed.

Section ArrayLemmas.
Context {A : Type}.
Implicit Types (a : jsarray A) (x : A).

Lemma push_ok a x :
  (N.of_nat (length a) < max_array_length)%N -> push a x = Some (a ++ [Some x]).
Proof. intros H. unfold push. by rewrite bool_decide_true. Qed.

Lemma push_full a x :
  N.of_nat (length a) = max_array_length -> push a x = None.
Proof. intros H. unfold push. rewrite bool_decide_false; [done|lia]. Qed.

Lemma splice1_in_range a k :
  k < length a -> splice1 a k = take k a ++ drop (S k) a.
Proof. intros H. unfold splice1. by case_bool_decide. Qed.

Lemma splice1_out_of_range a k : length a <= k -> splice1 a k = a.
Proof. intros H. unfold splice1. case_bool_decide; [lia|done]. Qed.

Lemma length_splice1 a k :
  length (splice1 a k) = if bool_decide (k < length a) then pred (length a) else length a.
Proof.
  unfold splice1. case_bool_decide; [|done].
  rewrite length_app, length_take, length_drop. lia.
Qed.

(** After [splice(k, 1)] the elements past [k] shift down by one. *)
Lemma lookup_splice1 a k i :
  k < length a ->
  splice1 a k !! i = if bool_decide (i < k) then a !! i else a !! S i.
Proof.
  intros Hk. rewrite splice1_in_range by done.
  case_bool_decide.
  - rewrite lookup_app_l by (rewrite length_take; lia). by rewrite lookup_take_lt.
  - rewrite lookup_app_r by (rewrite length_take; lia).
    rewrite lookup_drop, length_take. f_equal. lia.
Qed.

Lemma set_index_in_range a k x :
  k < length a -> set_index a k x = <[k := Some x]> a.
Proof. intros H. unfold set_index. by case_bool_decide. Qed.

(** Beyond the end, the write grows the array with holes. *)
Lemma set_index_beyond a k x :
  length a <= k -> set_index a k x = a ++ replicate (k - length a) None ++ [Some x].
Proof. intros H. unfold set_index. by rewrite bool_decide_false by lia. Qed.

End ArrayLemmas.

Lemma array_index_show (n : nat) :
  (N.of_nat n < max_array_length)%N -> array_index (show_nat n) = Some n.
Proof.
  intros H. unfold array_index. rewrite parse_show_nat.
  by rewrite bool_decide_true by done.
Qed.

End JsValue.
