(* ===== verification/UnitTest.v ===== *)
(** * The inline unit-test library ([test], src/app.js lines 59-64)

    [test.ok(value, message)] logs [message] with [console.log] when
    [value] holds and throws [new Error(message)] otherwise; [equal] and
    [notEqual] call it with [===] and [!==].  The effects are modelled by
    a small monad [run]: a computation reads and extends the console log
    and either returns or throws (the thrown message and the log so far). *)

From stdpp Require Import base list strings.
From S2P Require Import TodoPrelude JsValue.
Import JsValue.

Module UnitTest.

Inductive outcome (A : Type) :=
| Returned (x : A) (log : list string)
| Thrown (msg : string) (log : list string).
Arguments Returned {A}.
Arguments Thrown {A}.

Definition run (A : Type) : Type := list string -> outcome A.

Definition ret {A} (x : A) : run A := fun log => Returned x log.

Definition bind {A B} (m : run A) (k : A -> run B) : run B :=
  fun log => match m log with
             | Returned x log' => k x log'
             | Thrown e log' => Thrown e log'
             end.

Notation "'do' x <- m ; k" := (bind m (fun x => k))
  (at level 10, x name, m at level 100, k at level 200) : todo_scope.

(** [console.log(message)]. *)
Definition console_log (message : string) : run unit :=
  fun log => Returned tt (log ++ [message]).

(** [throw new Error(message)]. *)
Definition throw {A} (message : string) : run A := fun log => Thrown message log.

(** [===] on the primitive values the tests compare.  [NaN] differs from
    itself; two arrays are equal only when they are the same object, and no
    test compares an array with itself. *)
Definition strict_eq (a b : jsval) : bool :=
  match a, b with
  | JUndef, JUndef => true
  | JStr s, JStr t => bool_decide (s = t)
  | JNum m, JNum n => bool_decide (m = n)
  | _, _ => false
  end.

(** [test.ok]: [value ? console.log(message) : (() => { throw ... })()]. *)
Definition ok (value : bool) (message : string) : run unit :=
  if value then console_log message else throw message.

Definition equal (actual expected : jsval) (message : string) : run unit :=
  ok (strict_eq actual expected) message.

Definition notEqual (actual expected : jsval) (message : string) : run unit :=
  ok (negb (strict_eq actual expected)) message.

End UnitTest.
