(* ===== verification/Template.v ===== *)
(** * The template engine [e.html] (src/app.js lines 35-56)

    [e.html] is a tag for ES2015 template literals: for
    [e.html`s0${v0}s1${v1}...sn`] the engine receives the literal parts
    [strings = [s0; ...; sn]] and the values [vals = [v0; ...]], and
    computes
      [vals.map((v, i) => strings[i] + (Array.isArray(v) ? v.join('') : v))
           .join('') + strings.slice(-1)[0]].
    [html] below is that expression, with [strings[i]] and
    [strings.slice(-1)[0]] reading [undefined] out of range.  The
    reference [interleave] is what the spec promises; [html_interleave]
    shows the engine computes it on every input a template literal can
    produce (one more literal part than values). *)

From stdpp Require Import base list strings.
From S2P Require Import TodoPrelude JsValue UnitTest.
Import JsValue.

Module Template.

(** [strings[i]]. *)
Definition nth_str (strings : list string) (i : nat) : jsval :=
  match strings !! i with Some s => JStr s | None => JUndef end.

(** [strings.slice(-1)[0]]. *)
Definition last_str (strings : list string) : jsval :=
  match last strings with Some s => JStr s | None => JUndef end.

(** [Array.isArray(v) ? v.join('') : v]. *)
Definition interp (v : jsval) : jsval :=
  match v with JArr a => JStr (join EmptyString a) | _ => v end.

(** [e.html(strings, ...vals)]. *)
Definition html (strings : list string) (vals : list jsval) : jsval :=
  js_add (JStr (join EmptyString (imap (fun i v => js_add (nth_str strings i) (interp v)) vals)))
         (last_str strings).

(** [e.html] applied to a template literal, as a string. *)
Definition html_str (strings : list string) (vals : list jsval) : string :=
  to_string (html strings vals).

(** What the spec says a value contributes: a list its elements'
    strings, concatenated with no delimiter ([undefined] and holes
    contributing nothing, an inner array its own string form); any other
    value its string form. *)
Definition ref_value (v : jsval) : string :=
  match v with
  | JArr a => str_concat ((fun x => match x with JUndef => EmptyString | _ => to_string x end) <$> a)
  | _ => to_string v
  end.

(** The spec's reading of a template literal [s0 ${v0} s1 ${v1} ...]:
    literal parts and the values' contributions, alternated. *)
Fixpoint interleave (s0 : string) (rest : list (jsval * string)) : string :=
  match rest with
  | [] => s0
  | (v, s) :: rest' => s0 +:+ ref_value v +:+ interleave s rest'
  end.

(** [e.test]: [e.html`<div>${message}</div>`] against
    ['<div>' + message + '</div>']. *)
Definition hello_message : string := "Hello, world!".

Definition e_test_label : string :=
  "it outputs " +:+ char_str ch_dquote +:+ hello_message +:+ char_str ch_dquote.

Definition e_test : UnitTest.run unit :=
  let message := hello_message in
  UnitTest.equal (html ["<div>"; "</div>"] [JStr message])
    (JStr ("<div>" +:+ message +:+ "</div>")) e_test_label.

(** ** Lemmas *)

Lemma to_string_interp (v : jsval) : to_string (interp v) = ref_value v.
Proof. destruct v as [| | | |a]; try done. simpl. unfold join. by rewrite join_strs_empty_sep. Qed.

Lemma ref_value_arr (a : list jsval) : ref_value (JArr a) = join EmptyString a.
Proof. unfold join. by rewrite join_strs_empty_sep. Qed.

Lemma js_add_str_interp (s : string) (v : jsval) :
  js_add (JStr s) (interp v) = JStr (s +:+ to_string (interp v)).
Proof. rewrite js_add_str_l. by destruct v. Qed.

(** The pieces [s_i + v_i] of the [map]. *)
Fixpoint pieces (s0 : string) (rest : list (jsval * string)) : list string :=
  match rest with
  | [] => []
  | (v, s) :: rest' => (s0 +:+ to_string (interp v)) :: pieces s rest'
  end.

Fixpoint final_part (s0 : string) (rest : list (jsval * string)) : string :=
  match rest with [] => s0 | (_, s) :: rest' => final_part s rest' end.

Lemma imap_pieces (s0 : string) (rest : list (jsval * string)) :
  imap (fun i v => js_add (nth_str (s0 :: rest.*2) i) (interp v)) rest.*1
  = JStr <$> pieces s0 rest.
Proof.
  revert s0. induction rest as [|[v s] rest IH]; intros s0; [done|].
  rewrite !fmap_cons. cbn [pieces fst snd]. rewrite imap_cons, fmap_cons. f_equal.
  - apply js_add_str_interp.
  - rewrite <- IH. apply imap_ext. intros i x _. done.
Qed.

Lemma last_final_part (s0 : string) (rest : list (jsval * string)) :
  last (s0 :: rest.*2) = Some (final_part s0 rest).
Proof.
  revert s0. induction rest as [|[v s] rest IH]; intros s0; [done|].
  rewrite fmap_cons. simpl snd. rewrite last_cons_cons. apply IH.
Qed.

Lemma interleave_pieces (s0 : string) (rest : list (jsval * string)) :
  interleave s0 rest = str_concat (pieces s0 rest) +:+ final_part s0 rest.
Proof.
  revert s0. induction rest as [|[v s] rest IH]; intros s0; [done|].
  simpl. rewrite IH, to_string_interp. autorewrite with todo_str. done.
Qed.

(** ** Properties *)

Lemma html_zip (s0 : string) (ss : list string) (vs : list jsval) :
  length vs = length ss -> html (s0 :: ss) vs = JStr (interleave s0 (zip vs ss)).
Proof.
  intros H. set (rest := zip vs ss).
  assert (Hv : vs = rest.*1) by (symmetry; apply fst_zip; lia).
  assert (Hs : ss = rest.*2) by (symmetry; apply snd_zip; lia).
  clearbody rest. subst vs ss.
  unfold html. rewrite imap_pieces, join_empty_strs.
  unfold last_str. rewrite last_final_part, interleave_pieces. done.
Qed.

(** C9: equivalence with the reference.  On every input a template
    literal produces, literal parts [s0 :: map snd rest] and values
    [map fst rest], [e.html] returns the literal parts and the string
    forms of the values alternated, an array value contributing its
    elements joined with no separator. *)
Theorem html_interleave (s0 : string) (rest : list (jsval * string)) :
  html (s0 :: rest.*2) rest.*1 = JStr (interleave s0 rest).
Proof.
  rewrite html_zip by (by rewrite !length_fmap). by rewrite zip_fst_snd.
Qed.

(** Out of the shape of template literals the engine reads [undefined]:
    with no literal part at all the result is the string ['undefined'],
    and a value past the last literal part is prefixed by ['undefined']. *)
Example html_no_strings : html [] [] = JStr "undefined".
Proof. reflexivity. Qed.

Example html_missing_part :
  html ["a"] [JStr "x"; JStr "y"] = JStr "axundefinedya".
Proof. reflexivity. Qed.

(** Arrays are flattened one level only: an inner array keeps its commas. *)
Example html_nested_array :
  html [EmptyString; EmptyString] [JArr [JArr [JStr "a"; JStr "b"]; JStr "c"]] = JStr "a,bc".
Proof. reflexivity. Qed.

End Template.
