(* ===== verification/View.v ===== *)
(** * The model and the view (src/app.js lines 14-32 and 142-177)

    [model] is one record, [{text, todos}]: the text of the input box and
    the labels of the items, [todos] being a (possibly sparse) JavaScript
    array.  [templateBody] is one template literal of [e.html]: the page
    head with the input box prefilled with [data.text], one row per
    element of [data.todos] (built by a nested [e.html] literal), the
    footer ["<n> item(s) left"] when the list is not empty, and a style
    block.  [view.html] is [templateBody]; [view.render] assigns it to the
    container's [innerHTML] (the DOM it builds is in [Dom.v]); [view.test]
    checks the markup of the empty model is not empty.

    [markup] spells the resulting string out; [view_html_markup] shows
    [view.html] computes it. *)

From stdpp Require Import base list strings.
From S2P Require Import TodoPrelude JsValue UnitTest Template.
Import JsValue.

Module View.

(** [const model = { text: '', todos: [] }]. *)
Record Model := mkModel { text : string; todos : jsarray string }.

Definition initial_model : Model := mkModel EmptyString [].

Definition nl : string := char_str ch_nl.

(** The literal parts of [templateBody]. *)
Definition body_parts : list string :=
  [ nl +:+ "<h3>todos</h3>" +:+ nl +:+ "<input type = 'checkbox'>" +:+ nl
       +:+ "<input id = 'text' placeholder = 'What needs to be done?' value='";
    "'>" +:+ nl +:+ "<ul>" +:+ nl +:+ "  ";
    nl +:+ "</ul>" +:+ nl;
    nl +:+ "<style>" +:+ nl +:+ "  label {" +:+ nl +:+ "    width: 165px;" +:+ nl
       +:+ "    display: inline-block;" +:+ nl +:+ "  }" +:+ nl +:+ "  #container {" +:+ nl
       +:+ "    text-align: center;" +:+ nl +:+ "  }" +:+ nl +:+ "  ul {" +:+ nl
       +:+ "    /* center */" +:+ nl +:+ "    margin: auto;" +:+ nl
       +:+ "    list-style-type: none;" +:+ nl +:+ "    padding-left: 0;" +:+ nl
       +:+ "  }" +:+ nl +:+ "</style>" ].

(** The literal parts of the row template. *)
Definition item_parts : list string :=
  [ nl +:+ "  <li>" +:+ nl +:+ "    <input type = 'checkbox'>" +:+ nl
       +:+ "    <label data-index = '";
    "'>";
    "</label>" +:+ nl +:+ "    <button data-index = '";
    "'>Delete</button>" +:+ nl +:+ "  </li>" +:+ nl +:+ "  " ].

(** The literal parts of the footer template. *)
Definition footer_parts : list string := ["<div>"; " item"; " left</div>"].

(** [(todo, index) => e.html`...${index}...${todo}...${index}...`]. *)
Definition item_html (todo : string) (index : nat) : jsval :=
  Template.html item_parts [JNum index; JStr todo; JNum index].

(** [data.todos.map(...)]: [map] skips the holes of a sparse array and
    keeps them in its result, where [join] reads them as [undefined]. *)
Definition map_todos (todos : jsarray string) : list jsval :=
  imap (fun index o => match o with Some todo => item_html todo index | None => JUndef end) todos.

(** [data.todos.length ? e.html`<div>...</div>` : '']. *)
Definition footer_html (todos : jsarray string) : jsval :=
  if truthy (JNum (length todos)) then
    Template.html footer_parts
      [JNum (length todos);
       JStr (if bool_decide (length todos <> 1) then "s" else EmptyString)]
  else JStr EmptyString.

(** [templateBody]. *)
Definition templateBody (data : Model) : jsval :=
  Template.html body_parts
    [JStr (text data); JArr (map_todos (todos data)); footer_html (todos data)].

(** [view.html]. *)
Definition view_html (data : Model) : string := to_string (templateBody data).

(** [view.test]. *)
Definition view_test : UnitTest.run unit :=
  UnitTest.notEqual (JNum (String.length (view_html initial_model))) (JNum 0)
    "it outputs something".

(** ** The markup, spelled out *)

Definition row_markup (index : nat) (todo : string) : string :=
  nth 0 item_parts EmptyString +:+ show_nat index +:+ nth 1 item_parts EmptyString +:+ todo
  +:+ nth 2 item_parts EmptyString +:+ show_nat index +:+ nth 3 item_parts EmptyString.

Definition row_piece (i : nat) (o : option string) : string :=
  match o with Some t => row_markup i t | None => EmptyString end.

Definition rows_markup (todos : jsarray string) : string := str_concat (imap row_piece todos).

Definition footer_markup (n : nat) : string :=
  match n with
  | 0 => EmptyString
  | 1 => "<div>1 item left</div>"
  | _ => "<div>" +:+ show_nat n +:+ " items left" +:+ "</div>"
  end.

Definition markup (m : Model) : string :=
  nth 0 body_parts EmptyString +:+ text m +:+ nth 1 body_parts EmptyString +:+ rows_markup (todos m)
  +:+ nth 2 body_parts EmptyString +:+ footer_markup (length (todos m)) +:+ nth 3 body_parts EmptyString.

(** ** Lemmas *)

Lemma item_html_row (todo : string) (index : nat) :
  item_html todo index = JStr (row_markup index todo).
Proof.
  unfold item_html, item_parts. rewrite Template.html_zip by done.
  unfold row_markup. simpl. by autorewrite with todo_str.
Qed.

Lemma join_map_todos (todos : jsarray string) :
  join EmptyString (map_todos todos) = rows_markup todos.
Proof.
  unfold join, map_todos, rows_markup. rewrite join_strs_empty_sep. f_equal.
  rewrite fmap_imap. apply imap_ext. intros i [t|] _; [|done].
  unfold compose. by rewrite item_html_row.
Qed.

Lemma footer_html_markup (todos : jsarray string) :
  footer_html todos = JStr (footer_markup (length todos)).
Proof.
  unfold footer_html. destruct (length todos) as [|[|n]]; [done|done|].
  simpl truthy. unfold footer_parts. rewrite Template.html_zip by done.
  simpl. by autorewrite with todo_str.
Qed.

Lemma templateBody_markup (m : Model) : templateBody m = JStr (markup m).
Proof.
  unfold templateBody, body_parts. rewrite Template.html_zip by done.
  cbn [zip zip_with Template.interleave].
  rewrite Template.ref_value_arr, join_map_todos, footer_html_markup. unfold markup. simpl.
  by autorewrite with todo_str.
Qed.

(** ** Properties *)

(** C10: [view.html] renders the model as the markup spelled out in
    [markup]: head, input box holding [text], one row per present item
    carrying its index, the footer, the style block. *)
Theorem view_html_markup (m : Model) : view_html m = markup m.
Proof. unfold view_html. by rewrite templateBody_markup. Qed.

(** C15: the footer.  With [n] items it reads ["<n> items left"], in the
    singular ["1 item left"] for one item, and is absent (the empty
    string) for an empty list. *)
Theorem footer_cases (todos : jsarray string) :
  footer_html todos =
    JStr (match length todos with
          | 0 => EmptyString
          | 1 => "<div>1 item left</div>"
          | n => "<div>" +:+ show_nat n +:+ " items left</div>"
          end).
Proof. rewrite footer_html_markup. by destruct (length todos) as [|[|n]]. Qed.

End View.
