(* ===== verification/Dom.v ===== *)
(** * The DOM that [view.render] builds (src/app.js line 17)

    [view.render(elem, data)] assigns [view.html(data)] to the
    container's [innerHTML]: the browser parses the markup and replaces
    the container's subtree.  The handlers read that subtree: the value of
    the input box [#text], the checkboxes, and for each row the label's
    [data-index] and text and the button's [data-index].

    [Dom] is that subtree, as far as the program reads it, and
    [parse_markup] is the browser's parser on the fragment of HTML the
    template produces: the fixed literal parts of [templateBody]; a
    single-quoted attribute value and text nodes in which the character
    references [&amp; &lt; &gt; &quot; &#39;] are decoded; decimal
    [data-index] values.  The input box's value drops line feeds (the
    value sanitization of [type=text]).  On any other markup (another
    [&], a carriage return, a NUL, a tag where the template has text) it
    returns [None]: the browser would build a DOM this development does
    not describe.

    [dom_of_model] is the DOM the spec promises ("after this call, the
    visible tree exactly reflects model"); [render_reflects_model] proves
    the parser gets it back from [view.html m] whenever the model's
    strings stay in that fragment ([model_safe]).  The promise is the
    class [RenderSound], which the handlers' proofs in [Intent] use.
    [parse_markup_shape] is the parser on any markup of the template's
    shape, not only the one [view.html] writes: [Application] uses it
    for the rows an item's text forges.  [render_quote_breaks] shows
    the promise fails for every text holding a quote: the template does
    not escape, and an escaped value (which the parser decodes) would
    have kept it. *)

From stdpp Require Import base list strings.
From Stdlib Require Import Ascii.
From S2P Require Import TodoPrelude JsValue Template View.
Import JsValue View.

Module Dom.

(** One [<li>] row: its checkbox, its label, its delete button. *)
Record Row := mkRow {
  row_checked : bool;
  label_index : string;
  label_text : string;
  label_editable : bool;
  button_index : string;
}.

(** The container's subtree. *)
Record Dom := mkDom {
  top_checked : bool;
  input_value : string;
  rows : list Row;
  footer_text : option string;
}.

(** The characters of a user's string the template can carry verbatim:
    in the single-quoted [value] attribute no quote, and in a text node
    no [<]; in both no [&] (which could start a character reference), no
    carriage return and no NUL (which the parser rewrites). *)
Definition attr_char (a : ascii) : bool :=
  negb (ascii_eqb a ch_squote || ascii_eqb a ch_amp || ascii_eqb a ch_cr || ascii_eqb a ch_nul).

Definition text_char (a : ascii) : bool :=
  negb (ascii_eqb a ch_lt || ascii_eqb a ch_amp || ascii_eqb a ch_cr || ascii_eqb a ch_nul).

(** Characters the parser of the fragment reads raw. *)
Definition raw_char (a : ascii) : bool := negb (ascii_eqb a ch_cr || ascii_eqb a ch_nul).

(** The character references of the fragment (what an HTML escaper
    emits), without their leading [&]. *)
Definition char_refs : list (string * ascii) :=
  [("amp;", ch_amp); ("lt;", ch_lt); ("gt;", chr 62); ("quot;", ch_dquote); ("#39;", ch_squote)].

Fixpoint match_ref (refs : list (string * ascii)) (s : string) : option (ascii * string) :=
  match refs with
  | [] => None
  | (name, c) :: refs' =>
      match strip_prefix name s with Some r => Some (c, r) | None => match_ref refs' s end
  end.

(** Decode the character references; each step reads at least one
    character, so the length of the string is enough fuel. *)
Fixpoint decode_refs (fuel : nat) (s : string) : option string :=
  match s with
  | EmptyString => Some EmptyString
  | String a s' =>
      match fuel with
      | 0 => None
      | S f =>
          if ascii_eqb a ch_amp then
            '(c, r) ← match_ref char_refs s'; String c <$> decode_refs f r
          else String a <$> decode_refs f s'
      end
  end.

Definition decode (s : string) : option string := decode_refs (String.length s) s.

(** A single-quoted attribute value, up to its closing quote, decoded. *)
Definition attr_value (s : string) : option (string * string) :=
  let '(v, r) := span (fun a => negb (ascii_eqb a ch_squote)) s in
  if str_forallb raw_char v then (fun d => (d, r)) <$> decode v else None.

(** A [data-index] value: a non-empty run of decimal digits. *)
Definition index_value (s : string) : option (string * string) :=
  let '(v, r) := span is_digit s in
  if bool_decide (v = EmptyString) then None else Some (v, r).

(** A text node, up to the next tag, decoded. *)
Definition text_value (s : string) : option (string * string) :=
  let '(v, r) := span (fun a => negb (ascii_eqb a ch_lt)) s in
  if str_forallb raw_char v then (fun d => (d, r)) <$> decode v else None.

(** The value of an [<input type=text>]: line feeds removed. *)
Definition strip_newlines (s : string) : string := str_filter (fun a => negb (ascii_eqb a ch_nl)) s.

Abbreviation part l i := (nth i l EmptyString).

(** One row of the list. *)
Definition parse_row (s : string) : option (Row * string) :=
  r1 ← strip_prefix (part item_parts 0) s;
  '(li, r2) ← index_value r1;
  r3 ← strip_prefix (part item_parts 1) r2;
  '(t, r4) ← text_value r3;
  r5 ← strip_prefix (part item_parts 2) r4;
  '(bi, r6) ← index_value r5;
  r7 ← strip_prefix (part item_parts 3) r6;
  Some (mkRow false li t false bi, r7).

(** The rows, as many as parse, with [fuel] bounding their number. *)
Fixpoint parse_rows (fuel : nat) (s : string) : list Row * string :=
  match fuel with
  | 0 => ([], s)
  | S f =>
      match parse_row s with
      | Some (r, s') => let '(rs, s'') := parse_rows f s' in (r :: rs, s'')
      | None => ([], s)
      end
  end.

(** The optional footer [<div>...</div>]. *)
Definition parse_footer (s : string) : option (option string * string) :=
  match strip_prefix "<div>" s with
  | None => Some (None, s)
  | Some r1 =>
      '(t, r2) ← text_value r1;
      r3 ← strip_prefix "</div>" r2;
      Some (Some t, r3)
  end.

(** The whole container.  Each row takes more than one character, so the
    length of the markup is enough fuel for [parse_rows]. *)
Definition parse_markup (s : string) : option Dom :=
  r0 ← strip_prefix (part body_parts 0) s;
  '(v, r1) ← attr_value r0;
  r2 ← strip_prefix (part body_parts 1) r1;
  let '(rs, r3) := parse_rows (String.length s) r2 in
  r4 ← strip_prefix (part body_parts 2) r3;
  '(ft, r5) ← parse_footer r4;
  r6 ← strip_prefix (part body_parts 3) r5;
  if bool_decide (r6 = EmptyString) then Some (mkDom false (strip_newlines v) rs ft) else None.

(** [view.render(container, data)]: the DOM built from [view.html(data)]. *)
Definition render (data : Model) : option Dom := parse_markup (view_html data).

(** ** What the render promises *)

Definition row_of (i : nat) (t : string) : Row :=
  mkRow false (show_nat i) t false (show_nat i).

(** One row per present item, holes skipped. *)
Fixpoint rows_from (i : nat) (todos : jsarray string) : list Row :=
  match todos with
  | [] => []
  | Some t :: l => row_of i t :: rows_from (S i) l
  | None :: l => rows_from (S i) l
  end.

Definition footer_of (n : nat) : option string :=
  match n with
  | 0 => None
  | 1 => Some "1 item left"
  | _ => Some (show_nat n +:+ " items left")
  end.

Definition dom_of_model (m : Model) : Dom :=
  mkDom false (strip_newlines (text m)) (rows_from 0 (todos m)) (footer_of (length (todos m))).

(** The model's strings stay in the fragment [parse_markup] reads. *)
Definition item_safe (o : option string) : bool :=
  match o with Some t => str_forallb text_char t | None => true end.

Definition model_safe (m : Model) : bool :=
  str_forallb attr_char (text m) && forallb item_safe (todos m).

(** The interface between the view and the intent: rendering a safe
    model yields the DOM that reflects it. *)
Class RenderSound (render : Model -> option Dom) : Prop :=
  render_sound : forall m, model_safe m = true -> render m = Some (dom_of_model m).

(** The markup of one row, as the row template writes it. *)
Definition row_src (r : Row) : string :=
  part item_parts 0 +:+ label_index r +:+ part item_parts 1 +:+ label_text r
  +:+ part item_parts 2 +:+ button_index r +:+ part item_parts 3.

(** A row as a render creates it: unchecked, not editable, decimal
    indices, a text the template carries verbatim. *)
Definition row_fresh (r : Row) : bool :=
  negb (row_checked r) && negb (label_editable r) &&
  bool_decide (label_index r <> EmptyString) && str_forallb is_digit (label_index r) &&
  bool_decide (button_index r <> EmptyString) && str_forallb is_digit (button_index r) &&
  str_forallb text_char (label_text r).

(** ** Lemmas: the parser on the pieces of the markup *)

(** Case analysis over the 256 characters, for facts about character
    classes. *)
Ltac by_all_chars :=
  let a := fresh "a" in
  intros a; destruct a as [[] [] [] [] [] [] [] []]; vm_compute; congruence.

Lemma digit_text_char : forall a, is_digit a = true -> text_char a = true.
Proof. by_all_chars. Qed.

Lemma text_char_not_lt : forall a, text_char a = true -> negb (ascii_eqb a ch_lt) = true.
Proof. by_all_chars. Qed.

Lemma attr_char_not_quote : forall a, attr_char a = true -> negb (ascii_eqb a ch_squote) = true.
Proof. by_all_chars. Qed.

Lemma text_char_raw : forall a, text_char a = true -> raw_char a = true.
Proof. by_all_chars. Qed.

Lemma attr_char_raw : forall a, attr_char a = true -> raw_char a = true.
Proof. by_all_chars. Qed.

Lemma text_char_not_amp : forall a, text_char a = true -> negb (ascii_eqb a ch_amp) = true.
Proof. by_all_chars. Qed.

Lemma attr_char_not_amp : forall a, attr_char a = true -> negb (ascii_eqb a ch_amp) = true.
Proof. by_all_chars. Qed.

(** A string with no [&] decodes to itself. *)
Lemma decode_refs_plain (f : nat) (s : string) :
  str_forallb (fun a => negb (ascii_eqb a ch_amp)) s = true -> String.length s <= f ->
  decode_refs f s = Some s.
Proof.
  revert f. induction s as [|a s IH]; intros f Hs Hf; [by destruct f|].
  simpl in Hs. apply andb_prop in Hs as [Ha Hs]. destruct f as [|f]; simpl in Hf; [lia|].
  simpl. destruct (ascii_eqb a ch_amp); [done|]. rewrite IH by (done || lia). done.
Qed.

Lemma decode_plain (s : string) :
  str_forallb (fun a => negb (ascii_eqb a ch_amp)) s = true -> decode s = Some s.
Proof. intros Hs. by apply decode_refs_plain. Qed.

Lemma match_ref_Some (P : ascii -> Prop) (refs : list (string * ascii)) (s r : string) (c : ascii) :
  Forall (fun nc => P nc.2) refs -> match_ref refs s = Some (c, r) ->
  P c /\ exists w, s = w +:+ r.
Proof.
  induction refs as [|[name c'] refs IH]; simpl; [done|]. intros [Hc Hrefs]%Forall_cons.
  destruct (strip_prefix name s) as [r'|] eqn:E; [|by apply IH].
  intros [= <- <-]. split; [done|]. exists name. by apply strip_prefix_Some.
Qed.

Lemma length_strip_newlines_app (s t : string) :
  String.length (strip_newlines (s +:+ t))
  = String.length (strip_newlines s) + String.length (strip_newlines t).
Proof. unfold strip_newlines. by rewrite str_filter_app, length_append. Qed.

(** Decoding yields no line feed of its own: what survives the input
    box's stripping is no longer than before. *)
Lemma decode_refs_strip_length (f : nat) (s d : string) :
  decode_refs f s = Some d -> String.length (strip_newlines d) <= String.length (strip_newlines s).
Proof.
  revert s d. induction f as [|f IH]; intros [|a s] d; cbn [decode_refs].
  - by intros [= <-].
  - done.
  - by intros [= <-].
  - destruct (ascii_eqb a ch_amp) eqn:Ha.
    + destruct (match_ref char_refs s) as [[c r]|] eqn:Hm; cbn [mbind option_bind]; [|done].
      destruct (decode_refs f r) as [d'|] eqn:Hd; cbn [fmap option_fmap option_map]; [|done].
      intros [= <-]. apply IH in Hd.
      apply (match_ref_Some (fun c => ascii_eqb c ch_nl = false)) in Hm as [Hc [w ->]];
        [|by repeat constructor].
      unfold strip_newlines in *. simpl. rewrite Hc. apply bool_decide_eq_true in Ha as ->.
      simpl. fold (strip_newlines (w +:+ r)). rewrite length_strip_newlines_app.
      unfold strip_newlines. lia.
    + destruct (decode_refs f s) as [d'|] eqn:Hd; cbn [fmap option_fmap option_map]; [|done].
      intros [= <-]. apply IH in Hd. unfold strip_newlines in *. simpl.
      destruct (negb (ascii_eqb a ch_nl)); simpl; lia.
Qed.

Lemma attr_value_app (v r : string) :
  str_forallb attr_char v = true -> str_head r = Some ch_squote ->
  attr_value (v +:+ r) = Some (v, r).
Proof.
  intros Hv Hr. unfold attr_value. rewrite span_app.
  - rewrite (str_forallb_impl _ _ v attr_char_raw Hv).
    by rewrite (decode_plain v (str_forallb_impl _ _ v attr_char_not_amp Hv)).
  - exact (str_forallb_impl _ _ v attr_char_not_quote Hv).
  - intros a Ha. rewrite Hr in Ha. by injection Ha as <-.
Qed.

Lemma text_value_app (t r : string) :
  str_forallb text_char t = true -> str_head r = Some ch_lt ->
  text_value (t +:+ r) = Some (t, r).
Proof.
  intros Ht Hr. unfold text_value. rewrite span_app.
  - rewrite (str_forallb_impl _ _ t text_char_raw Ht).
    by rewrite (decode_plain t (str_forallb_impl _ _ t text_char_not_amp Ht)).
  - exact (str_forallb_impl _ _ t text_char_not_lt Ht).
  - intros a Ha. rewrite Hr in Ha. by injection Ha as <-.
Qed.

Lemma index_value_digits (v r : string) :
  v <> EmptyString -> str_forallb is_digit v = true ->
  (forall a, str_head r = Some a -> is_digit a = false) ->
  index_value (v +:+ r) = Some (v, r).
Proof.
  intros Hne Hv Hr. unfold index_value. rewrite span_app by done.
  by rewrite bool_decide_false.
Qed.

Ltac head_not_digit := let a := fresh "a" in let Ha := fresh "Ha" in
  intros a Ha; simpl in Ha; by injection Ha as <-.

Lemma parse_row_src (r : Row) (rest : string) :
  row_fresh r = true -> parse_row (row_src r +:+ rest) = Some (r, rest).
Proof.
  destruct r as [ck li t ed bi]. unfold row_fresh.
  cbn [row_checked label_index label_text label_editable button_index].
  intros H. repeat (apply andb_prop in H as [H ?]).
  destruct ck, ed; try done. rewrite !bool_decide_eq_true in *.
  unfold parse_row, row_src. cbn [label_index label_text button_index].
  autorewrite with todo_str.
  rewrite strip_prefix_app. cbn [mbind option_bind].
  rewrite index_value_digits by (done || head_not_digit). cbn [mbind option_bind].
  rewrite strip_prefix_app. cbn [mbind option_bind].
  rewrite text_value_app by done. cbn [mbind option_bind].
  rewrite strip_prefix_app. cbn [mbind option_bind].
  rewrite index_value_digits by (done || head_not_digit). cbn [mbind option_bind].
  by rewrite strip_prefix_app.
Qed.

(** A value holding a quote ends at it: what the input box gets is
    shorter than the value. *)
Lemma attr_value_quote (t r v r1 : string) :
  str_forallb (fun a => negb (ascii_eqb a ch_squote)) t = false ->
  attr_value (t +:+ r) = Some (v, r1) ->
  String.length (strip_newlines v) < String.length (strip_newlines t).
Proof.
  intros Ht. unfold attr_value.
  destruct (span_splits_inside _ t r Ht) as (a & t' & Et & Ha).
  destruct (span _ (t +:+ r)) as [w r0]. simpl in Et.
  destruct (str_forallb raw_char w); [|done].
  destruct (decode w) as [d|] eqn:Hd; [|done]. intros [= <- _].
  apply decode_refs_strip_length in Hd. rewrite Et, length_strip_newlines_app.
  apply negb_false_iff, bool_decide_eq_true in Ha as ->. simpl. lia.
Qed.

Lemma parse_row_end (r : string) : parse_row (part body_parts 2 +:+ r) = None.
Proof. reflexivity. Qed.

Lemma length_row_src (r : Row) : 1 <= String.length (row_src r).
Proof. unfold row_src. simpl. lia. Qed.

Lemma rows_src_length (rs : list Row) :
  length rs <= String.length (str_concat (row_src <$> rs)).
Proof.
  induction rs as [|r rs IH]; [simpl; lia|].
  rewrite fmap_cons, str_concat_cons, length_append. pose proof (length_row_src r). simpl. lia.
Qed.

Lemma parse_rows_step (f : nat) (s s' : string) (r : Row) :
  parse_row s = Some (r, s') ->
  parse_rows (S f) s = let '(rs, s'') := parse_rows f s' in (r :: rs, s'').
Proof. intros H. simpl. by rewrite H. Qed.

Lemma parse_rows_src (fuel : nat) (rs : list Row) (rest : string) :
  forallb row_fresh rs = true -> length rs <= fuel ->
  parse_rows (S fuel) (str_concat (row_src <$> rs) +:+ part body_parts 2 +:+ rest)
  = (rs, part body_parts 2 +:+ rest).
Proof.
  revert fuel. induction rs as [|r rs IH]; intros fuel Hfresh Hfuel.
  - cbn [fmap list_fmap parse_rows]. rewrite str_concat_nil, append_nil_l.
    by rewrite parse_row_end.
  - simpl in Hfresh, Hfuel. apply andb_prop in Hfresh as [Hr Hrs].
    destruct fuel as [|fuel]; [lia|].
    rewrite fmap_cons, str_concat_cons, <- append_assoc.
    rewrite (parse_rows_step _ _ _ _ (parse_row_src _ _ Hr)).
    rewrite IH by (done || lia). done.
Qed.

Lemma parse_footer_markup (n : nat) (r : string) :
  parse_footer (footer_markup n +:+ part body_parts 3 +:+ r) = Some (footer_of n, part body_parts 3 +:+ r).
Proof.
  destruct n as [|[|n]]; [reflexivity|reflexivity|].
  unfold parse_footer, footer_markup, footer_of. autorewrite with todo_str.
  rewrite strip_prefix_app. rewrite (append_assoc (show_nat _) " items left").
  rewrite text_value_app; [| | done].
  - cbn [mbind option_bind]. by rewrite strip_prefix_app.
  - rewrite str_forallb_app. apply andb_true_intro. split; [|done].
    eapply str_forallb_impl; [apply digit_text_char | apply show_nat_digits].
Qed.

(** The parser on any markup of the template's shape: a value, rows as
    the row template writes them, a footer. *)
Lemma parse_markup_shape (v : string) (rs : list Row) (n : nat) :
  str_forallb attr_char v = true -> forallb row_fresh rs = true ->
  parse_markup (part body_parts 0 +:+ v +:+ part body_parts 1 +:+ str_concat (row_src <$> rs)
                +:+ part body_parts 2 +:+ footer_markup n +:+ part body_parts 3)
  = Some (mkDom false (strip_newlines v) rs (footer_of n)).
Proof.
  intros Hv Hrs. unfold parse_markup.
  match goal with |- context [parse_rows (String.length ?s)] =>
    assert (Hlen : length rs < String.length s) end.
  { rewrite !length_append. pose proof (rows_src_length rs). simpl. lia. }
  destruct (String.length _) as [|fuel]; [lia|].
  rewrite strip_prefix_app. cbn [mbind option_bind].
  rewrite attr_value_app by done. cbn [mbind option_bind].
  rewrite strip_prefix_app. cbn [mbind option_bind].
  rewrite <- (append_nil_r (part body_parts 3)).
  rewrite parse_rows_src by (done || lia).
  rewrite strip_prefix_app. cbn [mbind option_bind].
  rewrite parse_footer_markup. cbn [mbind option_bind].
  rewrite strip_prefix_app. done.
Qed.

Lemma rows_markup_src (i : nat) (l : jsarray string) :
  str_concat (imap_from row_piece i l) = str_concat (row_src <$> rows_from i l).
Proof.
  revert i. induction l as [|[t|] l IH]; intros i; [done| |].
  - simpl imap_from. simpl rows_from. rewrite fmap_cons, !str_concat_cons, IH. done.
  - simpl imap_from. rewrite str_concat_cons, IH. done.
Qed.

Lemma rows_from_fresh (i : nat) (l : jsarray string) :
  forallb item_safe l = true -> forallb row_fresh (rows_from i l) = true.
Proof.
  revert i. induction l as [|[t|] l IH]; intros i Hl; [done| |]; simpl in Hl |- *.
  - apply andb_prop in Hl as [Ht Hl]. rewrite IH by done. unfold row_fresh. simpl.
    rewrite show_nat_digits, Ht, bool_decide_true by apply show_nat_nonempty. done.
  - by apply IH.
Qed.

(** What the input box of a parsed DOM holds. *)
Lemma parse_markup_input (s : string) (d : Dom) :
  parse_markup s = Some d ->
  exists r0 v r1, strip_prefix (part body_parts 0) s = Some r0 /\ attr_value r0 = Some (v, r1) /\
                  input_value d = strip_newlines v.
Proof.
  unfold parse_markup. destruct (strip_prefix _ s) as [r0|] eqn:E0; [|done].
  cbn [mbind option_bind].
  destruct (attr_value r0) as [[v r1]|] eqn:E1; [|done]. cbn [mbind option_bind].
  intros H. exists r0, v, r1. do 2 (split; [done|]). revert H.
  intros (r2 & _ & H)%bind_Some. destruct (parse_rows _ r2) as [rs r3].
  apply bind_Some in H as (r4 & _ & H). apply bind_Some in H as ([ft r5] & _ & H).
  apply bind_Some in H as (r6 & _ & H). case_bool_decide; by simplify_eq/=.
Qed.

(** ** The render reflects the model *)

Lemma parse_view_html (m : Model) :
  model_safe m = true -> parse_markup (view_html m) = Some (dom_of_model m).
Proof.
  intros [Htext Htodos]%andb_prop.
  unfold view_html. rewrite templateBody_markup. simpl to_string.
  unfold markup, rows_markup. rewrite imap_imap_from, rows_markup_src.
  rewrite parse_markup_shape; [done|done|]. by apply rows_from_fresh.
Qed.

(** C4: roundtrip of the view.  For every model whose strings stay in the
    HTML fragment the template is written for, the DOM the browser builds
    from [view.html(model)] is [dom_of_model model]: an input box holding
    [text] (less its line feeds, which the browser strips), one row per
    present item whose label shows the item and whose label and button
    both carry the item's index, and the footer. *)
Theorem render_reflects_model (m : Model) :
  model_safe m = true -> render m = Some (dom_of_model m).
Proof. apply parse_view_html. Qed.

Lemma render_reflects_model_witness :
  model_safe (mkModel EmptyString [Some "a"]) = true /\
  render (mkModel EmptyString [Some "a"]) = Some (dom_of_model (mkModel EmptyString [Some "a"])).
Proof. split; [reflexivity|]. apply render_reflects_model. reflexivity. Defined.

(** C11: the view does not escape the input's text.  When [text] holds
    a single quote, the DOM built from [view.html(model)] is not the one
    that reflects the model: the quote closes the [value] attribute
    early and the input box holds less than the text.  (An escaping
    template, writing [&#39;], would render the model faithfully.) *)
Theorem render_quote_breaks (m : Model) :
  str_forallb (fun a => negb (ascii_eqb a ch_squote)) (text m) = false ->
  render m <> Some (dom_of_model m).
Proof.
  intros Hq Hr. apply parse_markup_input in Hr as (r0 & v & r1 & H0 & Hv & Hin).
  unfold view_html in H0. rewrite templateBody_markup in H0. simpl to_string in H0.
  unfold markup in H0.
  rewrite strip_prefix_app in H0. injection H0 as <-.
  apply attr_value_quote in Hv; [|done]. simpl in Hin. rewrite Hin in Hv. lia.
Qed.

Lemma render_quote_breaks_witness :
  str_forallb (fun a => negb (ascii_eqb a ch_squote)) (text (mkModel "it's" [])) = false /\
  render (mkModel "it's" []) <> Some (dom_of_model (mkModel "it's" [])).
Proof. split; [reflexivity|]. apply render_quote_breaks. reflexivity. Defined.

#[export] Instance render_is_sound : RenderSound render.
Proof. intros m. apply parse_view_html. Qed.

End Dom.
