(* ===== verification/Intent.v ===== *)
(** * The intent: event handlers, listener rebinding, main
      (src/app.js lines 66-140)

    The application's state [App] is the shared [model], the container's
    DOM, whether the listeners of [intent.listen] are attached to the
    current elements ([bound]), and the messages shown by [alert].

    Each handler of [intent] is a function of the state, reading the DOM
    where the code reads [event.target] or [$('#text')[0]], mutating the
    model in the code's order and calling [view.render] where the code
    does.  The render is a parameter [render] of the section: the
    function that gives the DOM the browser builds from the markup
    ([Dom.render]); the handlers' theorems only use its contract
    [Dom.RenderSound].  A handler returns [None] when the render's markup
    leaves the HTML fragment [Dom] describes.

    [dispatch] is the browser: a user action changes the DOM the way the
    browser does (typing changes the input's value, a click toggles a
    checkbox, an editable label takes the typed text) and then fires the
    event, whose handler runs only when the listeners are attached.
    [intent.listen]'s interval callback attaches them all ([Tick]); a
    render replaces every element, so the new ones have no listener until
    the next tick.  Focus is not modelled: a label has the focus exactly
    when it is editable (it is focusable only then, and the code makes it
    editable on the double click that focuses it). *)

From stdpp Require Import base list strings.
From S2P Require Import TodoPrelude JsValue UnitTest Template View Dom.
Import JsValue View Dom.

Module Intent.

Record App := mkApp {
  model : Model;
  dom : Dom;
  bound : bool;
  alerts : list string;
}.

Definition with_model (a : App) (m : Model) : App := mkApp m (dom a) (bound a) (alerts a).
Definition with_dom (a : App) (d : Dom) : App := mkApp (model a) d (bound a) (alerts a).

Definition with_rows (d : Dom) (rs : list Row) : Dom :=
  mkDom (top_checked d) (input_value d) rs (footer_text d).

Definition set_editable (b : bool) (r : Row) : Row :=
  mkRow (row_checked r) (label_index r) (label_text r) b (button_index r).
Definition set_row_checked (b : bool) (r : Row) : Row :=
  mkRow b (label_index r) (label_text r) (label_editable r) (button_index r).
Definition set_label_text (t : string) (r : Row) : Row :=
  mkRow (row_checked r) (label_index r) t (label_editable r) (button_index r).

(** Change the [j]-th row of the container. *)
Definition alter_row (f : Row -> Row) (j : nat) (a : App) : App :=
  with_dom a (with_rows (dom a) (alter f j (rows (dom a)))).

Definition editable_at (a : App) (j : nat) : bool :=
  match rows (dom a) !! j with Some r => label_editable r | None => false end.

(** The checkboxes: the one under the heading, and one per row. *)
Inductive Checkbox := TopBox | RowBox (j : nat).

Definition checkbox_exists (a : App) (c : Checkbox) : bool :=
  match c with TopBox => true | RowBox j => bool_decide (j < length (rows (dom a))) end.

Definition checked (a : App) (c : Checkbox) : bool :=
  match c with
  | TopBox => top_checked (dom a)
  | RowBox j => match rows (dom a) !! j with Some r => row_checked r | None => false end
  end.

Definition set_checked (c : Checkbox) (b : bool) (a : App) : App :=
  match c with
  | TopBox =>
      let d := dom a in with_dom a (mkDom b (input_value d) (rows d) (footer_text d))
  | RowBox j => alter_row (set_row_checked b) j a
  end.

Definition italian_alert : string :=
  "It's an Italian todo. Italians never finish things, like Expo".

Definition enter_key : nat := 13.
Definition escape_key : nat := 27.

Section Handlers.

(** The DOM [view.render] builds from the markup of a model. *)
Context (render : Model -> option Dom).

(** [view.render(container, model)]: a new subtree, with no listener. *)
Definition view_render (a : App) : option App :=
  d ← render (model a); Some (mkApp (model a) d false (alerts a)).

(** [intent.inputHandler] (keyup on [#text]). *)
Definition inputHandler (keyCode : nat) (a : App) : option App :=
  let m := model a in
  let a := with_model a (mkModel (input_value (dom a)) (todos m)) in
  if bool_decide (keyCode = enter_key) then
    let m := model a in
    match push (todos m) (input_value (dom a)) with
    | None => Some a
    | Some todos' =>
        let a := with_model a (mkModel EmptyString todos') in
        view_render a
    end
  else Some a.

(** [intent.completedHandler] (change on a checkbox). *)
Definition completedHandler (c : Checkbox) (a : App) : option App :=
  let a := if checked a c then mkApp (model a) (dom a) (bound a) (alerts a ++ [italian_alert]) else a in
  Some (set_checked c false a).

(** [intent.deleteHandler] (click on the [j]-th delete button). *)
Definition deleteHandler (j : nat) (a : App) : option App :=
  match rows (dom a) !! j with
  | None => Some a
  | Some target =>
      let index := button_index target in
      let m := model a in
      let a := with_model a (mkModel (text m) (splice1 (todos m) (to_integer_digits index))) in
      view_render a
  end.

(** [intent.editHandler] (double click on the [j]-th label). *)
Definition editHandler (j : nat) (a : App) : option App :=
  Some (alter_row (set_editable true) j a).

(** [intent.input2Handler] (input on the [j]-th label). *)
Definition input2Handler (j : nat) (a : App) : option App :=
  match rows (dom a) !! j with
  | None => Some a
  | Some target =>
      let index := label_index target in
      let m := model a in
      Some (with_model a (mkModel (text m) (set_prop (todos m) index (label_text target))))
  end.

(** [intent.endEditHandler] (blur of the [j]-th label). *)
Definition endEditHandler (j : nat) (a : App) : option App :=
  Some (alter_row (set_editable false) j a).

(** The [blur] event of the [j]-th label, fired when it has the focus. *)
Definition fire_blur (j : nat) (a : App) : option App :=
  if editable_at a j then (if bound a then endEditHandler j a else Some a) else Some a.

(** [intent.escOrEnterHandler] (keypress on the [j]-th label):
    [event.target.blur()] on Enter or Escape. *)
Definition escOrEnterHandler (j : nat) (keyCode : nat) (a : App) : option App :=
  if bool_decide (index_of [enter_key; escape_key] keyCode <> (-1)%Z) then fire_blur j a
  else Some a.

(** The interval callback of [intent.listen]: every element present gets
    its listeners. *)
Definition listen_tick (a : App) : option App :=
  Some (mkApp (model a) (dom a) true (alerts a)).

(** What the user does. *)
Inductive Event :=
| TypeText (v : string)
| KeyUp (keyCode : nat)
| ClickCheckbox (c : Checkbox)
| ClickDelete (j : nat)
| DblClickLabel (j : nat)
| EditLabel (j : nat) (t : string)
| KeyPressLabel (j : nat) (keyCode : nat)
| BlurLabel (j : nat)
| Tick.

(** The browser: the default action of a user action, then the event's
    listener if it is attached. *)
Definition dispatch (ev : Event) (a : App) : option App :=
  let listener h := if bound a then h else Some a in
  match ev with
  | TypeText v =>
      let d := dom a in Some (with_dom a (mkDom (top_checked d) v (rows d) (footer_text d)))
  | KeyUp k => listener (inputHandler k a)
  | ClickCheckbox c =>
      if checkbox_exists a c then
        let a := set_checked c (negb (checked a c)) a in
        if bound a then completedHandler c a else Some a
      else Some a
  | ClickDelete j =>
      if bool_decide (j < length (rows (dom a))) then listener (deleteHandler j a) else Some a
  | DblClickLabel j =>
      if bool_decide (j < length (rows (dom a))) then listener (editHandler j a) else Some a
  | EditLabel j t =>
      if editable_at a j then
        let a := alter_row (set_label_text t) j a in
        if bound a then input2Handler j a else Some a
      else Some a
  | KeyPressLabel j k => if editable_at a j then listener (escOrEnterHandler j k a) else Some a
  | BlurLabel j => fire_blur j a
  | Tick => listen_tick a
  end.

(** A sequence of user actions. *)
Fixpoint run_events (evs : list Event) (a : App) : option App :=
  match evs with
  | [] => Some a
  | ev :: evs' => a' ← dispatch ev a; run_events evs' a'
  end.

(** [const development = true]. *)
Definition development : bool := true.

(** [main]: the self-tests in development mode, the first render, then
    [intent.listen] (whose first tick comes 100 ms later). *)
Definition main : UnitTest.run (option App) :=
  UnitTest.bind (if development then UnitTest.bind Template.e_test (fun _ => View.view_test)
                 else UnitTest.ret tt)
    (fun _ => UnitTest.ret (d ← render initial_model; Some (mkApp initial_model d false []))).

End Handlers.

(** ** The invariant of the running application *)

(** What the user may type: text that stays in the HTML fragment of
    [Dom] both as the input's [value] attribute and as a label. *)
Definition input_safe (v : string) : bool :=
  str_forallb attr_char v && str_forallb text_char v.

Definition event_safe (ev : Event) : bool :=
  match ev with
  | TypeText v => input_safe v
  | EditLabel _ t => str_forallb text_char t
  | _ => true
  end.

(** No hole, and every item a safe text. *)
Definition items_ok (l : jsarray string) : Prop :=
  Forall (fun o => exists t, o = Some t /\ str_forallb text_char t = true) l.

Definition model_ok (m : Model) : Prop :=
  input_safe (text m) = true /\ items_ok (todos m) /\
  (N.of_nat (length (todos m)) <= max_array_length)%N.

(** The [j]-th row shows the [j]-th item, and its label and button carry
    [j]. *)
Definition rows_match (rs : list Row) (l : jsarray string) : Prop :=
  length rs = length l /\
  forall j r, rs !! j = Some r ->
    l !! j = Some (Some (label_text r)) /\ label_index r = show_nat j /\ button_index r = show_nat j.

Record app_inv (a : App) : Prop := {
  inv_model : model_ok (model a);
  inv_input : input_safe (input_value (dom a)) = true;
  inv_rows : rows_match (rows (dom a)) (todos (model a));
  inv_edit : forall j, editable_at a j = true -> bound a = true;
}.

(** ** Lemmas *)

Lemma rows_from_dense (i : nat) (l : jsarray string) :
  Forall is_Some l ->
  length (rows_from i l) = length l /\
  forall j r, rows_from i l !! j = Some r -> exists t, l !! j = Some (Some t) /\ r = row_of (i + j) t.
Proof.
  revert i. induction l as [|o l IH]; intros i Hl; [split; [done|by intros ? ? ?]|].
  inversion Hl as [|? ? [t ->] Hl']; subst.
  destruct (IH (S i) Hl') as [Hlen Hlook]. split; [simpl; lia|].
  intros [|j] r Hj; simpl in Hj.
  - injection Hj as <-. exists t. split; [done|]. by rewrite Nat.add_0_r.
  - destruct (Hlook j r Hj) as (t' & ? & ->). exists t'. split; [done|].
    by rewrite Nat.add_succ_r.
Qed.

Lemma items_ok_dense (l : jsarray string) : items_ok l -> Forall is_Some l.
Proof. intros Hl. eapply Forall_impl; [exact Hl|]. intros o (t & -> & _). by eexists. Qed.

Lemma items_ok_safe (l : jsarray string) : items_ok l -> forallb item_safe l = true.
Proof.
  intros Hl. apply forallb_forall. intros o Ho%list_elem_of_In.
  unfold items_ok in Hl. rewrite Forall_forall in Hl. by destruct (Hl o Ho) as (t & -> & Ht).
Qed.

Lemma model_ok_safe (m : Model) : model_ok m -> model_safe m = true.
Proof.
  intros (Ht & Hitems & _). unfold model_safe. apply andb_true_intro. split.
  - by apply andb_prop in Ht as [? _].
  - by apply items_ok_safe.
Qed.

Lemma rows_match_fresh (m : Model) :
  items_ok (todos m) -> rows_match (rows (dom_of_model m)) (todos m).
Proof.
  intros Hitems. destruct (rows_from_dense 0 (todos m) (items_ok_dense _ Hitems)) as [Hlen Hlook].
  split; [done|]. intros j r Hj. destruct (Hlook j r Hj) as (t & Ht & ->). by rewrite Ht.
Qed.

Lemma rows_fresh_not_editable (m : Model) (j : nat) (r : Row) :
  items_ok (todos m) -> rows (dom_of_model m) !! j = Some r -> label_editable r = false.
Proof.
  intros Hitems Hj. destruct (rows_from_dense 0 (todos m) (items_ok_dense _ Hitems)) as [_ Hlook].
  by destruct (Hlook j r Hj) as (t & _ & ->).
Qed.

(** A change of a row that keeps its indices and its text. *)
Definition keeps_label (f : Row -> Row) : Prop :=
  forall r, label_index (f r) = label_index r /\ button_index (f r) = button_index r /\
            label_text (f r) = label_text r.

Lemma rows_match_alter (f : Row -> Row) (j : nat) (rs : list Row) (l : jsarray string) :
  keeps_label f -> rows_match rs l -> rows_match (alter f j rs) l.
Proof.
  intros Hf [Hlen Hlook]. split; [by rewrite length_alter|].
  intros i r Hi. rewrite list_lookup_alter in Hi. destruct (decide (j = i)) as [<-|].
  - destruct (rs !! j) as [r0|] eqn:E; [|done]. injection Hi as <-.
    destruct (Hf r0) as (-> & -> & ->). by apply Hlook.
  - by apply Hlook.
Qed.

Lemma keeps_label_editable (b : bool) : keeps_label (set_editable b).
Proof. done. Qed.

Lemma keeps_label_checked (b : bool) : keeps_label (set_row_checked b).
Proof. done. Qed.

(** A change of a row that makes no label editable. *)
Definition no_new_edit (f : Row -> Row) : Prop :=
  forall r, label_editable (f r) = true -> label_editable r = true.

Lemma no_new_edit_false : no_new_edit (set_editable false).
Proof. by intros r. Qed.

Lemma no_new_edit_checked (b : bool) : no_new_edit (set_row_checked b).
Proof. by intros r. Qed.

#[local] Hint Resolve keeps_label_editable keeps_label_checked no_new_edit_false
  no_new_edit_checked : todo.

Lemma rows_match_edit (rs : list Row) (l : jsarray string) (j : nat) (t : string) :
  rows_match rs l -> rows_match (alter (set_label_text t) j rs) (<[j := Some t]> l).
Proof.
  intros [Hlen Hlook]. split; [by rewrite length_alter, length_insert|].
  intros i r Hi. rewrite list_lookup_alter in Hi. destruct (decide (j = i)) as [<-|Hne].
  - destruct (rs !! j) as [r0|] eqn:E; [|done]. injection Hi as <-.
    destruct (Hlook j r0 E) as (Hl & Hli & Hbi). simpl. split; [|done].
    apply list_lookup_insert_eq. by eapply lookup_lt_Some.
  - rewrite list_lookup_insert_ne by done. by apply Hlook.
Qed.

Lemma push_Some {A} (l : jsarray A) (x : A) (l' : jsarray A) :
  push l x = Some l' -> l' = l ++ [Some x] /\ (N.of_nat (length l) < max_array_length)%N.
Proof. unfold push. case_bool_decide; [by intros [= <-] | done]. Qed.

Lemma items_ok_snoc (l : jsarray string) (t : string) :
  items_ok l -> str_forallb text_char t = true -> items_ok (l ++ [Some t]).
Proof. intros Hl Ht. apply Forall_app. split; [done|]. constructor; [by exists t|done]. Qed.

Lemma items_ok_splice1 (l : jsarray string) (k : nat) : items_ok l -> items_ok (splice1 l k).
Proof.
  intros Hl. unfold splice1. case_bool_decide; [|done].
  apply Forall_app. split; [by apply Forall_take | by apply Forall_drop].
Qed.

Lemma model_ok_splice1 (m : Model) (k : nat) :
  model_ok m -> model_ok (mkModel (text m) (splice1 (todos m) k)).
Proof.
  intros (Ht & Hitems & Hlen). split; [done|]. split; [by apply items_ok_splice1|].
  simpl. rewrite length_splice1. case_bool_decide; lia.
Qed.

Lemma input_safe_text (v : string) : input_safe v = true -> str_forallb text_char v = true.
Proof. by intros [_ ?]%andb_prop. Qed.

Lemma model_ok_input (m : Model) (v : string) :
  model_ok m -> input_safe v = true -> model_ok (mkModel v (todos m)).
Proof. intros (_ & ? & ?) Hv. done. Qed.

Lemma bound_set_checked (c : Checkbox) (b : bool) (a : App) : bound (set_checked c b a) = bound a.
Proof. by destruct c. Qed.

Lemma editable_at_alter (f : Row -> Row) (j i : nat) (a : App) :
  editable_at (alter_row f j a) i = true ->
  editable_at a i = true \/ (i = j /\ exists r, rows (dom a) !! j = Some r /\ label_editable (f r) = true).
Proof.
  unfold editable_at, alter_row. simpl. rewrite list_lookup_alter.
  destruct (decide (j = i)) as [<-|]; [|by left].
  destruct (rows (dom a) !! j) as [r|]; simpl; [|done]. intros H. right. eauto.
Qed.

(** The browser's line-feed stripping keeps a value safe. *)
Lemma input_safe_strip (v : string) : input_safe v = true -> input_safe (strip_newlines v) = true.
Proof.
  unfold input_safe, strip_newlines. intros [Ha Ht]%andb_prop.
  by rewrite !str_forallb_filter.
Qed.

Section Invariant.
Context (render : Model -> option Dom) `{!RenderSound render}.

Lemma view_render_ok (a : App) :
  model_ok (model a) ->
  exists a', view_render render a = Some a' /\ app_inv a' /\ model a' = model a /\
             bound a' = false /\ alerts a' = alerts a.
Proof.
  intros Hm. unfold view_render. rewrite (render_sound _ (model_ok_safe _ Hm)).
  eexists. split; [done|]. split; [|done]. destruct Hm as (Ht & Hitems & Hlen).
  split; simpl.
  - done.
  - by apply input_safe_strip.
  - by apply rows_match_fresh.
  - intros j. unfold editable_at. simpl. destruct (rows_from 0 (todos (model a)) !! j) eqn:E; [|done].
    by rewrite (rows_fresh_not_editable (model a) j r Hitems E).
Qed.

(** A change of the rows that keeps indices and texts, and makes a label
    editable only when the listeners are attached, keeps the invariant. *)
Lemma alter_row_inv (f : Row -> Row) (j : nat) (a : App) :
  app_inv a -> keeps_label f ->
  (bound a = true \/ no_new_edit f) ->
  app_inv (alter_row f j a).
Proof.
  intros [Hm Hin Hrows Hed] Hf Hb. split; try done.
  - by apply rows_match_alter.
  - intros i Hi. apply (editable_at_alter f j i a) in Hi as [Hi | (-> & r & Hr & Hfr)]; [by apply (Hed i)|].
    destruct Hb as [Hb | Hb]; [done|]. apply (Hed j). unfold editable_at. rewrite Hr. by apply Hb.
Qed.

Lemma with_model_inv (a : App) (m : Model) :
  app_inv a -> model_ok m -> todos m = todos (model a) -> app_inv (with_model a m).
Proof. intros [? ? Hrows ?] Hm Ht. split; simpl; try done. by rewrite Ht. Qed.

(** Reduce a goal [exists a', view_render render x = Some a' /\ app_inv a']
    to [model_ok (model x)]. *)
Ltac render_step a' Ha' :=
  match goal with
  | |- context [view_render render ?x] =>
      destruct (view_render_ok x) as (a' & -> & Ha' & _); [|by eexists]
  end.

(** Enter, below the array bound: the value is pushed, the text cleared,
    the container re-rendered. *)
Lemma inputHandler_enter (a : App) :
  (N.of_nat (length (todos (model a))) < max_array_length)%N ->
  inputHandler render enter_key a =
    view_render render (mkApp (mkModel EmptyString (todos (model a) ++ [Some (input_value (dom a))]))
                              (dom a) (bound a) (alerts a)).
Proof. intros Hlen. unfold inputHandler. rewrite bool_decide_true by done. simpl. by rewrite push_ok. Qed.

Lemma inputHandler_inv (k : nat) (a : App) :
  app_inv a -> exists a', inputHandler render k a = Some a' /\ app_inv a'.
Proof.
  intros Ha. pose proof (inv_model _ Ha) as Hm. pose proof (inv_input _ Ha) as Hin.
  assert (Ha1 : app_inv (with_model a (mkModel (input_value (dom a)) (todos (model a)))))
    by (apply with_model_inv; [done | by apply model_ok_input | done]).
  unfold inputHandler. case_bool_decide; [|by eexists].
  destruct (push _ _) as [todos'|] eqn:Hpush; [|by eexists].
  apply push_Some in Hpush as [-> Hlen]. simpl in Hlen.
  destruct Hm as (_ & Hitems & _).
  render_step a' Ha'.
  split; [done|]. split; simpl.
  - by apply items_ok_snoc, input_safe_text.
  - rewrite length_app. simpl. lia.
Qed.

Lemma completedHandler_inv (c : Checkbox) (a : App) :
  app_inv a -> exists a', completedHandler c a = Some a' /\ app_inv a'.
Proof.
  intros Ha. eexists. split; [done|].
  assert (Ha1 : app_inv (if checked a c then mkApp (model a) (dom a) (bound a) (alerts a ++ [italian_alert]) else a))
    by (destruct (checked a c); [destruct Ha; by split|done]).
  destruct c as [|j]; simpl.
  - destruct Ha1; by split.
  - apply alter_row_inv; auto with todo.
Qed.

Lemma set_checked_inv (c : Checkbox) (b : bool) (a : App) : app_inv a -> app_inv (set_checked c b a).
Proof. intros Ha. destruct c; simpl; [destruct Ha; by split | apply alter_row_inv; auto with todo]. Qed.

Lemma deleteHandler_inv (j : nat) (a : App) :
  app_inv a -> exists a', deleteHandler render j a = Some a' /\ app_inv a'.
Proof.
  intros Ha. unfold deleteHandler. destruct (rows (dom a) !! j) as [r|] eqn:Hr; [|by eexists].
  render_step a' Ha'. apply model_ok_splice1, Ha.
Qed.

Lemma endEditHandler_inv (j : nat) (a : App) :
  app_inv a -> exists a', endEditHandler j a = Some a' /\ app_inv a'.
Proof. intros Ha. eexists. split; [done|]. apply alter_row_inv; auto with todo. Qed.

Lemma fire_blur_inv (j : nat) (a : App) :
  app_inv a -> exists a', fire_blur j a = Some a' /\ app_inv a'.
Proof.
  intros Ha. unfold fire_blur. destruct (editable_at a j), (bound a); try by eexists.
  by apply endEditHandler_inv.
Qed.

(** Editing a label writes the text into the item of the label's index,
    which is the row's own position. *)
Lemma input2_after_edit (j : nat) (t : string) (a : App) :
  app_inv a -> editable_at a j = true ->
  j < length (todos (model a)) /\
  input2Handler j (alter_row (set_label_text t) j a) =
    Some (mkApp (mkModel (text (model a)) (<[j := Some t]> (todos (model a))))
                (with_rows (dom a) (alter (set_label_text t) j (rows (dom a)))) (bound a) (alerts a)).
Proof.
  intros [(Htext & Hitems & Hlen) Hin Hrows Hed] Hj.
  unfold editable_at in Hj. destruct (rows (dom a) !! j) as [r|] eqn:Hr; [|done].
  destruct (proj2 Hrows j r Hr) as (Hl & Hli & _).
  assert (Hjl : j < length (todos (model a))) by (eapply lookup_lt_Some; eauto).
  split; [done|].
  unfold input2Handler, alter_row. simpl. rewrite list_lookup_alter, decide_True, Hr by done.
  simpl. rewrite Hli. unfold set_prop. rewrite array_index_show by lia.
  by rewrite set_index_in_range.
Qed.

Lemma edit_label_inv (j : nat) (t : string) (a : App) :
  app_inv a -> editable_at a j = true -> str_forallb text_char t = true ->
  exists a', input2Handler j (alter_row (set_label_text t) j a) = Some a' /\ app_inv a'.
Proof.
  intros Ha Hj Ht. destruct (input2_after_edit j t a Ha Hj) as [Hjl ->].
  pose proof (inv_edit _ Ha j Hj) as Hb.
  destruct Ha as [(Htext & Hitems & Hlen) Hin Hrows Hed].
  eexists. split; [done|]. split; cbn [model dom bound alerts with_rows rows text todos].
  - split; [done|]. split; [by apply Forall_insert; [|exists t]|]. simpl. by rewrite length_insert.
  - done.
  - by apply rows_match_edit.
  - intros i Hi. by destruct (editable_at_alter (set_label_text t) j i a Hi) as [Hi'|[-> _]]; [apply (Hed i)|].
Qed.

Lemma dispatch_inv (ev : Event) (a : App) :
  app_inv a -> event_safe ev = true -> exists a', dispatch render ev a = Some a' /\ app_inv a'.
Proof.
  intros Ha Hev. destruct ev as [v|k|c|j|j|j t|j k|j|]; simpl in Hev |- *.
  - eexists. split; [done|]. destruct Ha. by split.
  - destruct (bound a); [by apply inputHandler_inv | by eexists].
  - destruct (checkbox_exists a c); [|by eexists].
    rewrite bound_set_checked. destruct (bound a).
    + apply completedHandler_inv, set_checked_inv, Ha.
    + eexists. split; [done|apply set_checked_inv, Ha].
  - case_bool_decide; [|by eexists]. destruct (bound a); [by apply deleteHandler_inv | by eexists].
  - case_bool_decide; [|by eexists]. destruct (bound a) eqn:Hb; [|by eexists].
    eexists. split; [done|]. apply alter_row_inv; auto with todo.
  - destruct (editable_at a j) eqn:Hj; [|by eexists].
    rewrite (inv_edit _ Ha j Hj). by apply edit_label_inv.
  - destruct (editable_at a j); [|by eexists]. destruct (bound a); [|by eexists].
    unfold escOrEnterHandler. case_bool_decide; [by apply fire_blur_inv | by eexists].
  - by apply fire_blur_inv.
  - eexists. split; [done|]. destruct Ha. by split.
Qed.

Lemma run_events_inv (evs : list Event) (a : App) :
  app_inv a -> forallb event_safe evs = true ->
  exists a', run_events render evs a = Some a' /\ app_inv a'.
Proof.
  revert a. induction evs as [|ev evs IH]; intros a Ha Hevs; [by exists a|].
  apply andb_prop in Hevs as [Hev Hevs].
  destruct (dispatch_inv ev a Ha Hev) as (a1 & Hd & Ha1). simpl. rewrite Hd. by apply IH.
Qed.

Lemma main_inv :
  exists a0, main render [] = UnitTest.Returned (Some a0) [Template.e_test_label; "it outputs something"]
    /\ app_inv a0 /\ model a0 = initial_model /\ bound a0 = false.
Proof.
  unfold main, development, UnitTest.bind.
  change (Template.e_test []) with (UnitTest.Returned tt [Template.e_test_label]).
  change (View.view_test [Template.e_test_label])
    with (UnitTest.Returned tt [Template.e_test_label; "it outputs something"]).
  unfold UnitTest.ret. rewrite (render_sound initial_model) by reflexivity.
  eexists. split; [done|]. split; [|done].
  split; [by compute; repeat split | done | |].
  - split; [done|by intros j r Hj].
  - by intros j Hj.
Qed.

End Invariant.

End Intent.
