(* ===== verification/Application.v ===== *)
(** * The running application: reachable states and its properties

    The handlers of [Intent] instantiated with the DOM of [Dom.render]
    (whose contract [Dom.RenderSound] holds by [Dom.render_reflects_model]),
    the states reachable from [main] by user actions whose text stays in
    the HTML fragment of [Dom] ([safe_reachable], an inductive step
    relation), and the properties of the program over them: the
    invariant, the absence of stale indices, the behaviour of each
    handler, and the timing and injection defects modelling exposed. *)

From stdpp Require Import base list strings.
From S2P Require Import TodoPrelude JsValue UnitTest Template View Dom Intent.
Import JsValue View Dom Intent.

Module Application.

Abbreviation step := (dispatch Dom.render).
Abbreviation run := (run_events Dom.render).

(** The states [main] starts, then every state a safe user action leads
    to. *)
Inductive safe_reachable : App -> Prop :=
| reach_main (a : App) (log : list string) :
    Intent.main Dom.render [] = UnitTest.Returned (Some a) log -> safe_reachable a
| reach_step (a a' : App) (ev : Event) :
    safe_reachable a -> event_safe ev = true -> step ev a = Some a' -> safe_reachable a'.

(** The state [main] starts. *)
Definition initial_app : App :=
  mkApp initial_model (dom_of_model initial_model) false [].

(** ** Lemmas *)

Lemma safe_reachable_inv (a : App) : safe_reachable a -> app_inv a.
Proof.
  induction 1 as [a log Hmain | a a' ev _ IH Hev Hstep].
  - destruct (main_inv Dom.render) as (a0 & Hm & Ha0 & _). rewrite Hm in Hmain. congruence.
  - destruct (dispatch_inv Dom.render ev a IH Hev) as (a1 & Hd & Ha1). congruence.
Qed.

Lemma to_integer_digits_show (n : nat) : to_integer_digits (show_nat n) = n.
Proof. unfold to_integer_digits. by rewrite parse_show_nat. Qed.

Lemma initial_app_reachable : safe_reachable initial_app.
Proof. apply (reach_main _ [Template.e_test_label; "it outputs something"]). reflexivity. Qed.

Lemma render_ok (m : Model) : model_ok m -> Dom.render m = Some (dom_of_model m).
Proof. intros Hm. apply parse_view_html, model_ok_safe, Hm. Qed.

Lemma run_reachable (evs : list Event) (a a' : App) :
  safe_reachable a -> forallb event_safe evs = true -> run evs a = Some a' -> safe_reachable a'.
Proof.
  revert a. induction evs as [|ev evs IH]; intros a Ha Hevs Hrun; simpl in Hrun.
  - congruence.
  - apply andb_prop in Hevs as [Hev Hevs].
    destruct (step ev a) as [a1|] eqn:Hd; [|done].
    apply (IH a1); [by apply (reach_step a a1 ev) | done | done].
Qed.

Lemma checked_set_checked (a : App) (c : Checkbox) (b : bool) :
  checkbox_exists a c = true -> checked (set_checked c b a) c = b.
Proof.
  destruct c as [|j]; [done|]. simpl. intros Hj%bool_decide_eq_true.
  rewrite list_lookup_alter, decide_True by done.
  destruct (rows (dom a) !! j) eqn:E; [done|]. apply lookup_ge_None in E. lia.
Qed.

Lemma run_tick_then (ev : Event) (a : App) :
  run [Tick; ev] a = (step ev (mkApp (model a) (dom a) true (alerts a)) ≫= fun a' => Some a').
Proof. reflexivity. Qed.

Lemma set_checked_model (c : Checkbox) (b : bool) (a : App) : model (set_checked c b a) = model a.
Proof. by destruct c. Qed.

Lemma set_checked_alerts (c : Checkbox) (b : bool) (a : App) : alerts (set_checked c b a) = alerts a.
Proof. by destruct c. Qed.

Lemma checked_set_false (c : Checkbox) (a : App) : checked (set_checked c false a) c = false.
Proof.
  destruct c as [|j]; [done|]. simpl. rewrite list_lookup_alter, decide_True by done.
  by destruct (rows (dom a) !! j).
Qed.

Lemma run_cons (ev : Event) (evs : list Event) (a : App) :
  run (ev :: evs) a = step ev a ≫= run evs.
Proof. reflexivity. Qed.

(** A click on the [j]-th delete button, listeners attached, over a
    model and rows that match: the [j]-th item is removed and the
    container re-rendered.  The input box may hold anything. *)
Lemma delete_step (a : App) (j : nat) (r : Row) :
  model_ok (model a) -> rows_match (rows (dom a)) (todos (model a)) ->
  bound a = true -> rows (dom a) !! j = Some r ->
  step (ClickDelete j) a =
    Some (mkApp (mkModel (text (model a)) (take j (todos (model a)) ++ drop (S j) (todos (model a))))
                (dom_of_model (mkModel (text (model a)) (take j (todos (model a)) ++ drop (S j) (todos (model a)))))
                false (alerts a)).
Proof.
  intros Hm [Hlen Hlook] Hb Hr. destruct (Hlook j r Hr) as (_ & _ & Hbi).
  assert (Hj : j < length (rows (dom a))) by (eapply lookup_lt_Some; eauto).
  pose proof (model_ok_splice1 (model a) j Hm) as Hm'.
  rewrite splice1_in_range in Hm' by lia.
  simpl. rewrite bool_decide_true, Hb by done.
  unfold deleteHandler. rewrite Hr, Hbi, to_integer_digits_show, splice1_in_range by lia.
  unfold view_render. simpl. by rewrite render_ok.
Qed.

(** A demonstration session: the list [a; b; c], listeners attached. *)
Definition demo_events : list Event :=
  [Tick; TypeText "a"; KeyUp 13; Tick; TypeText "b"; KeyUp 13; Tick;
   TypeText "c"; KeyUp 13; Tick].

Definition demo_app : App := default initial_app (run demo_events initial_app).

Lemma demo_app_reachable : safe_reachable demo_app.
Proof.
  apply (run_reachable demo_events initial_app); [exact initial_app_reachable | reflexivity |].
  vm_compute. reflexivity.
Qed.

(** ** Properties *)

(** C1: the invariant of the running program.  In every state reached
    from [main] by safe user actions, the model's array has no hole, and
    the [j]-th row of the DOM shows the [j]-th item, its label and its
    delete button both carrying the index [j]: no row carries a stale
    index. *)
Theorem safe_reachable_rows (a : App) :
  safe_reachable a ->
  Forall is_Some (todos (model a)) /\
  length (rows (dom a)) = length (todos (model a)) /\
  forall j r, rows (dom a) !! j = Some r ->
    todos (model a) !! j = Some (Some (label_text r)) /\
    label_index r = show_nat j /\ button_index r = show_nat j.
Proof.
  intros Hr. destruct (safe_reachable_inv a Hr) as [(_ & Hitems & _) _ [Hlen Hlook] _].
  split; [by apply items_ok_dense|]. done.
Qed.

Lemma safe_reachable_rows_witness :
  safe_reachable initial_app /\ Forall is_Some (todos (model initial_app)) /\
  length (rows (dom initial_app)) = length (todos (model initial_app)) /\
  forall j r, rows (dom initial_app) !! j = Some r ->
    todos (model initial_app) !! j = Some (Some (label_text r)) /\
    label_index r = show_nat j /\ button_index r = show_nat j.
Proof.
  split; [exact initial_app_reachable|]. apply safe_reachable_rows. exact initial_app_reachable.
Defined.

(** C6: delete removes the clicked item.  In a reachable state with the
    listeners attached, a click on the [j]-th delete button removes the
    item that row shows, the [j]-th, the later items shifting down by one,
    and re-renders the container from the new model. *)
Theorem delete_removes_clicked_item (a : App) (j : nat) (r : Row) :
  safe_reachable a -> bound a = true -> rows (dom a) !! j = Some r ->
  todos (model a) !! j = Some (Some (label_text r)) /\
  exists a', step (ClickDelete j) a = Some a' /\
    todos (model a') = take j (todos (model a)) ++ drop (S j) (todos (model a)) /\
    text (model a') = text (model a) /\ dom a' = dom_of_model (model a') /\ bound a' = false.
Proof.
  intros Hreach Hb Hr. pose proof (safe_reachable_inv a Hreach) as [Hm _ Hrows _].
  split; [by apply (proj2 Hrows j r Hr)|].
  eexists. split; [by apply (delete_step a j r)|]. done.
Qed.

(** C7: an edit is written to the edited item.  In a reachable state,
    text typed into the [j]-th label (editable after a double click)
    replaces the [j]-th item, and only it: the write is in range, so it
    never grows the array. *)
Theorem edit_label_writes_item (a : App) (j : nat) (t : string) :
  safe_reachable a -> editable_at a j = true ->
  j < length (todos (model a)) /\
  exists a', step (EditLabel j t) a = Some a' /\
    todos (model a') = <[j := Some t]> (todos (model a)) /\ text (model a') = text (model a).
Proof.
  intros Hreach Hj. pose proof (safe_reachable_inv a Hreach) as Ha.
  destruct (input2_after_edit j t a Ha Hj) as [Hjl Hres]. split; [done|].
  eexists. split.
  { simpl. rewrite Hj. unfold alter_row at 1. simpl. rewrite (inv_edit _ Ha j Hj). exact Hres. }
  done.
Qed.

Lemma delete_removes_clicked_item_witness :
  safe_reachable demo_app /\ bound demo_app = true /\
  rows (dom demo_app) !! 1 = Some (row_of 1 "b") /\
  todos (model demo_app) !! 1 = Some (Some (label_text (row_of 1 "b"))) /\
  exists a', step (ClickDelete 1) demo_app = Some a' /\
    todos (model a') = take 1 (todos (model demo_app)) ++ drop 2 (todos (model demo_app)) /\
    text (model a') = text (model demo_app) /\ dom a' = dom_of_model (model a') /\ bound a' = false.
Proof.
  split; [exact demo_app_reachable|]. split; [vm_compute; reflexivity|].
  split; [vm_compute; reflexivity|].
  apply delete_removes_clicked_item; [exact demo_app_reachable | vm_compute; reflexivity | vm_compute; reflexivity].
Defined.

Lemma edit_label_writes_item_witness :
  let a := default initial_app (step (DblClickLabel 2) demo_app) in
  safe_reachable a /\ editable_at a 2 = true /\
  2 < length (todos (model a)) /\
  exists a', step (EditLabel 2 "milk") a = Some a' /\
    todos (model a') = <[2 := Some "milk"]> (todos (model a)) /\ text (model a') = text (model a).
Proof.
  assert (Hr : safe_reachable (default initial_app (step (DblClickLabel 2) demo_app))).
  { apply (reach_step demo_app _ (DblClickLabel 2)); [exact demo_app_reachable | reflexivity |].
    vm_compute. reflexivity. }
  split; [exact Hr|]. split; [vm_compute; reflexivity|].
  apply edit_label_writes_item; [exact Hr | vm_compute; reflexivity].
Defined.

(** C8: Enter adds the input's value.  With the listeners attached, a
    keyup of Enter on the input box appends the box's current value to
    the list, clears [model.text] and re-renders: the new DOM reflects
    the new model and has no listener yet. *)
Theorem enter_appends_input (a : App) :
  bound a = true -> (N.of_nat (length (todos (model a))) < max_array_length)%N ->
  model_safe (mkModel EmptyString (todos (model a) ++ [Some (input_value (dom a))])) = true ->
  step (KeyUp enter_key) a =
    Some (mkApp (mkModel EmptyString (todos (model a) ++ [Some (input_value (dom a))]))
                (dom_of_model (mkModel EmptyString (todos (model a) ++ [Some (input_value (dom a))])))
                false (alerts a)).
Proof.
  intros Hb Hlen Hsafe. simpl. rewrite Hb, inputHandler_enter by done.
  unfold view_render, Dom.render. cbn [model]. by rewrite parse_view_html.
Qed.

Lemma enter_appends_input_witness :
  let a := default initial_app (step (TypeText "buy milk") (default initial_app (step Tick initial_app))) in
  bound a = true /\ (N.of_nat (length (todos (model a))) < max_array_length)%N /\
  model_safe (mkModel EmptyString (todos (model a) ++ [Some (input_value (dom a))])) = true /\
  step (KeyUp enter_key) a =
    Some (mkApp (mkModel EmptyString (todos (model a) ++ [Some (input_value (dom a))]))
                (dom_of_model (mkModel EmptyString (todos (model a) ++ [Some (input_value (dom a))])))
                false (alerts a)).
Proof.
  split; [reflexivity|]. split; [vm_compute; reflexivity|]. split; [vm_compute; reflexivity|].
  apply enter_appends_input; [reflexivity | vm_compute; reflexivity | vm_compute; reflexivity].
Defined.

(** C12: after a tick, Enter is handled.  From every reachable state
    whose list is below the array bound, the tick of [intent.listen]
    followed by Enter adds the input's value to the list and clears
    [model.text]. *)
Theorem tick_then_enter_adds (a : App) :
  safe_reachable a -> (N.of_nat (length (todos (model a))) < max_array_length)%N ->
  exists a', run [Tick; KeyUp enter_key] a = Some a' /\
    todos (model a') = todos (model a) ++ [Some (input_value (dom a))] /\
    text (model a') = EmptyString.
Proof.
  intros Hreach Hlen. destruct (safe_reachable_inv a Hreach) as [(Ht & Hitems & _) Hin _ _].
  eexists. split.
  { rewrite run_tick_then. cbn [dispatch bound]. rewrite inputHandler_enter by done.
    unfold view_render. cbn [model]. rewrite render_ok; [reflexivity|].
    split; [done|]. split; [by apply items_ok_snoc, input_safe_text|].
    simpl. rewrite length_app. simpl. lia. }
  done.
Qed.

Lemma tick_then_enter_adds_witness :
  let a := default initial_app (step (TypeText "eggs") demo_app) in
  safe_reachable a /\ (N.of_nat (length (todos (model a))) < max_array_length)%N /\
  exists a', run [Tick; KeyUp enter_key] a = Some a' /\
    todos (model a') = todos (model a) ++ [Some (input_value (dom a))] /\
    text (model a') = EmptyString.
Proof.
  assert (Hr : safe_reachable (default initial_app (step (TypeText "eggs") demo_app))).
  { apply (reach_step demo_app _ (TypeText "eggs")); [exact demo_app_reachable | reflexivity |].
    vm_compute. reflexivity. }
  split; [exact Hr|]. split; [vm_compute; reflexivity|].
  apply tick_then_enter_adds; [exact Hr | vm_compute; reflexivity].
Defined.

(** C13: completing an item is rejected.  With the listeners attached, a
    click on an existing checkbox leaves the model unchanged and the
    checkbox unchecked after the handler; the alert is shown exactly when
    the click checked the box, that is when it was unchecked before. *)
Theorem click_checkbox_reverts (a : App) (c : Checkbox) :
  bound a = true -> checkbox_exists a c = true ->
  exists a', step (ClickCheckbox c) a = Some a' /\ model a' = model a /\
    checked a' c = false /\
    alerts a' = alerts a ++ (if checked a c then [] else [italian_alert]).
Proof.
  intros Hb Hc. simpl. rewrite Hc, bound_set_checked, Hb.
  eexists. split; [reflexivity|]. unfold completedHandler.
  rewrite checked_set_checked by done.
  destruct (checked a c); simpl negb; cbn iota;
    (split; [|split; [apply checked_set_false|]]);
    rewrite ?set_checked_model, ?set_checked_alerts; simpl;
    rewrite ?set_checked_model, ?set_checked_alerts, ?app_nil_r; done.
Qed.

Lemma click_checkbox_reverts_witness :
  bound demo_app = true /\ checkbox_exists demo_app (RowBox 0) = true /\
  exists a', step (ClickCheckbox (RowBox 0)) demo_app = Some a' /\ model a' = model demo_app /\
    checked a' (RowBox 0) = false /\
    alerts a' = alerts demo_app ++ (if checked demo_app (RowBox 0) then [] else [italian_alert]).
Proof.
  split; [vm_compute; reflexivity|]. split; [vm_compute; reflexivity|].
  apply click_checkbox_reverts; vm_compute; reflexivity.
Defined.

(** C14: Enter or Escape ends an edit.  With the listeners attached, a
    keypress of Enter (13) or Escape (27) on the label being edited
    blurs it, which makes it non-editable; any other key leaves the state
    unchanged. *)
Theorem keypress_ends_edit (a : App) (j k : nat) :
  bound a = true -> editable_at a j = true ->
  step (KeyPressLabel j k) a =
    Some (if bool_decide (k = enter_key \/ k = escape_key) then alter_row (set_editable false) j a else a).
Proof.
  intros Hb Hj. simpl. rewrite Hj, Hb. unfold escOrEnterHandler.
  pose proof (index_of_enter_esc k) as Hk.
  repeat case_bool_decide; try tauto. unfold fire_blur. by rewrite Hj, Hb.
Qed.

Lemma keypress_ends_edit_witness :
  let a := default initial_app (step (DblClickLabel 0) demo_app) in
  bound a = true /\ editable_at a 0 = true /\
  step (KeyPressLabel 0 escape_key) a =
    Some (if bool_decide (escape_key = enter_key \/ escape_key = escape_key)
          then alter_row (set_editable false) 0 a else a).
Proof.
  split; [vm_compute; reflexivity|]. split; [vm_compute; reflexivity|].
  apply keypress_ends_edit; vm_compute; reflexivity.
Defined.






(** C5: text typed before the listeners are attached is lost.  In
    every reachable state without listeners (after [main] or a render,
    before the next tick of [intent.listen]), text typed into the input
    box and the key released with it do not reach [model.text]: after the
    tick, a click on a delete button re-renders the container from the
    model and the input box shows [model.text] again, not the typed
    text. *)
Theorem keystrokes_lost_before_rebinding (a : App) (v : string) (k j : nat) :
  safe_reachable a -> bound a = false -> j < length (rows (dom a)) ->
  exists a', run [TypeText v; KeyUp k; Tick; ClickDelete j] a = Some a' /\
    text (model a') = text (model a) /\ input_value (dom a') = strip_newlines (text (model a)).
Proof.
  intros Hreach Hb Hj. pose proof (safe_reachable_inv a Hreach) as [Hm _ Hrows _].
  destruct (lookup_lt_is_Some_2 _ _ Hj) as [r Hr].
  rewrite run_cons. cbn [dispatch mbind option_bind].
  rewrite run_cons. cbn [dispatch bound with_dom]. rewrite Hb. cbn [mbind option_bind].
  rewrite run_cons. cbn [dispatch listen_tick mbind option_bind].
  rewrite run_cons. rewrite (delete_step _ j r) by (simpl; done).
  cbn [mbind option_bind run_events]. by eexists.
Qed.

Lemma keystrokes_lost_before_rebinding_witness :
  let a := default initial_app (run [Tick; TypeText "x"; KeyUp enter_key] initial_app) in
  safe_reachable a /\ bound a = false /\ 0 < length (rows (dom a)) /\
  exists a', run [TypeText "y"; KeyUp 89; Tick; ClickDelete 0] a = Some a' /\
    text (model a') = text (model a) /\ input_value (dom a') = strip_newlines (text (model a)).
Proof.
  assert (Hr : safe_reachable (default initial_app (run [Tick; TypeText "x"; KeyUp enter_key] initial_app))).
  { apply (run_reachable [Tick; TypeText "x"; KeyUp enter_key] initial_app);
      [exact initial_app_reachable | reflexivity | vm_compute; reflexivity]. }
  split; [exact Hr|]. split; [vm_compute; reflexivity|]. split; [vm_compute; lia|].
  apply keystrokes_lost_before_rebinding; [exact Hr | vm_compute; reflexivity | vm_compute; lia].
Defined.

End Application.
