(* ===== verification/Refinement.v ===== *)
(** * Refinement: the widget implements an abstract TODO list

    The spec describes the program as a list of labels and a text, on
    which the user appends the text ("add"), deletes the item at a
    position, replaces the item at a position ("edit"), or changes the
    text.  [TodoList] and [apply_op] are that abstract machine;
    [abstracts a s] relates a state of the program to an abstract state
    (same text, the array holding exactly the abstract items, no hole).

    [step_refines] is the simulation: from a reachable state, each user
    action the program handles is one abstract operation (or none), on a
    position that exists. *)

From stdpp Require Import base list strings.
From S2P Require Import TodoPrelude JsValue UnitTest Template View Dom Intent Application.
Import JsValue View Dom Intent Application.

Module Refinement.

Record TodoList := mkTodoList { spec_text : string; spec_items : list string }.

Inductive Op :=
| Skip
| SetText (v : string)
| Add (v : string)
| Delete (i : nat)
| Edit (i : nat) (v : string).

Definition apply_op (s : TodoList) (op : Op) : TodoList :=
  match op with
  | Skip => s
  | SetText v => mkTodoList v (spec_items s)
  | Add v => mkTodoList EmptyString (spec_items s ++ [v])
  | Delete i => mkTodoList (spec_text s) (take i (spec_items s) ++ drop (S i) (spec_items s))
  | Edit i v => mkTodoList (spec_text s) (<[i := v]> (spec_items s))
  end.

(** Deletes and edits address an existing item. *)
Definition op_in_range (s : TodoList) (op : Op) : bool :=
  match op with
  | Delete i | Edit i _ => bool_decide (i < length (spec_items s))
  | _ => true
  end.

Definition abstracts (a : App) (s : TodoList) : Prop :=
  text (model a) = spec_text s /\ todos (model a) = Some <$> spec_items s.

(** ** Lemmas *)

Lemma abstracts_same_model (a a' : App) (s : TodoList) :
  model a' = model a -> abstracts a s -> abstracts a' (apply_op s Skip).
Proof. intros Hm Ha. unfold abstracts. by rewrite Hm. Qed.

Lemma view_render_model (x a' : App) : view_render Dom.render x = Some a' -> model a' = model x.
Proof. unfold view_render. destruct (Dom.render (model x)); simpl; [by intros [= <-]|done]. Qed.

Lemma fire_blur_model (j : nat) (a a' : App) : fire_blur j a = Some a' -> model a' = model a.
Proof. unfold fire_blur, endEditHandler. repeat case_match; by intros [= <-]. Qed.

Lemma completedHandler_model (c : Checkbox) (a a' : App) :
  completedHandler c a = Some a' -> model a' = model a.
Proof. unfold completedHandler. intros [= <-]. rewrite set_checked_model. by case_match. Qed.

Lemma input_refines (k : nat) (a a' : App) (s : TodoList) :
  abstracts a s -> inputHandler Dom.render k a = Some a' ->
  exists op, op_in_range s op = true /\ abstracts a' (apply_op s op).
Proof.
  intros [Ht Hi] Hstep. unfold inputHandler in Hstep.
  case_bool_decide; [|exists (SetText (input_value (dom a))); injection Hstep as <-; done].
  destruct (push _ _) as [todos'|] eqn:Hpush.
  - apply push_Some in Hpush as [-> _]. apply view_render_model in Hstep.
    exists (Add (input_value (dom a))). split; [done|]. unfold abstracts. rewrite Hstep. simpl.
    split; [done|]. by rewrite fmap_app, Hi.
  - exists (SetText (input_value (dom a))). injection Hstep as <-. done.
Qed.

Lemma delete_refines (j : nat) (a a' : App) (s : TodoList) :
  app_inv a -> abstracts a s -> deleteHandler Dom.render j a = Some a' ->
  exists op, op_in_range s op = true /\ abstracts a' (apply_op s op).
Proof.
  intros [_ _ [Hlen Hlook] _] [Ht Hi] Hstep. unfold deleteHandler in Hstep.
  destruct (rows (dom a) !! j) as [r|] eqn:Hr; [|exists Skip; injection Hstep as <-; done].
  destruct (Hlook j r Hr) as (Hl & _ & Hbi). apply view_render_model in Hstep.
  assert (Hj : j < length (spec_items s)).
  { rewrite <- (length_fmap Some), <- Hi. by eapply lookup_lt_Some. }
  exists (Delete j). split; [by apply bool_decide_eq_true|].
  unfold abstracts. rewrite Hstep. simpl. split; [done|].
  rewrite Hbi, to_integer_digits_show, splice1_in_range, Hi by (rewrite Hi, length_fmap; lia).
  by rewrite fmap_app, fmap_take, fmap_drop.
Qed.

Lemma edit_refines (j : nat) (t : string) (a a' : App) (s : TodoList) :
  app_inv a -> abstracts a s -> editable_at a j = true ->
  input2Handler j (alter_row (set_label_text t) j a) = Some a' ->
  exists op, op_in_range s op = true /\ abstracts a' (apply_op s op).
Proof.
  intros Ha [Ht Hi] Hj Hstep. destruct (input2_after_edit j t a Ha Hj) as [Hjl Heq].
  rewrite Heq in Hstep. injection Hstep as <-.
  exists (Edit j t). rewrite Hi, length_fmap in Hjl. split; [by apply bool_decide_eq_true|].
  unfold abstracts. simpl. split; [done|]. by rewrite Hi, list_fmap_insert.
Qed.

(** ** The simulation *)

(** C2: refinement.  From every reachable state abstracted by [s], each
    user action the program handles performs one operation of the
    abstract TODO list (or none), and that operation addresses an item
    that exists: the state reached is abstracted by [apply_op s op]. *)
Theorem step_refines (a a' : App) (s : TodoList) (ev : Event) :
  safe_reachable a -> abstracts a s -> step ev a = Some a' ->
  exists op, op_in_range s op = true /\ abstracts a' (apply_op s op).
Proof.
  intros Hreach Habs Hstep. pose proof (safe_reachable_inv a Hreach) as Ha.
  assert (Hskip : model a' = model a -> exists op, op_in_range s op = true /\ abstracts a' (apply_op s op))
    by (intros Hm; exists Skip; split; [done|]; by apply (abstracts_same_model a)).
  destruct ev as [v|k|c|j|j|j t|j k|j|]; simpl in Hstep.
  - apply Hskip. by injection Hstep as <-.
  - destruct (bound a); [by apply (input_refines k a)|]. apply Hskip. by injection Hstep as <-.
  - destruct (checkbox_exists a c); [|apply Hskip; by injection Hstep as <-].
    rewrite bound_set_checked in Hstep. apply Hskip. destruct (bound a).
    + apply completedHandler_model in Hstep. by rewrite Hstep, set_checked_model.
    + injection Hstep as <-. apply set_checked_model.
  - case_bool_decide; [|apply Hskip; by injection Hstep as <-].
    destruct (bound a); [by apply (delete_refines j a)|]. apply Hskip. by injection Hstep as <-.
  - apply Hskip. repeat case_match; by injection Hstep as <-.
  - destruct (editable_at a j) eqn:Hj; [|apply Hskip; by injection Hstep as <-].
    cbn [bound alter_row with_dom] in Hstep. rewrite (inv_edit _ Ha j Hj) in Hstep.
    by apply (edit_refines j t a).
  - apply Hskip. destruct (editable_at a j), (bound a); try (by injection Hstep as <-).
    unfold escOrEnterHandler in Hstep. case_bool_decide; [by apply (fire_blur_model j)|].
    by injection Hstep as <-.
  - apply Hskip. by apply (fire_blur_model j).
  - apply Hskip. unfold listen_tick in Hstep. by injection Hstep as <-.
Qed.

Lemma step_refines_witness :
  safe_reachable demo_app /\ abstracts demo_app (mkTodoList EmptyString ["a"; "b"; "c"]) /\
  step (ClickDelete 1) demo_app = Some (default demo_app (step (ClickDelete 1) demo_app)) /\
  exists op, op_in_range (mkTodoList EmptyString ["a"; "b"; "c"]) op = true /\
    abstracts (default demo_app (step (ClickDelete 1) demo_app))
      (apply_op (mkTodoList EmptyString ["a"; "b"; "c"]) op).
Proof.
  split; [exact demo_app_reachable|]. split; [vm_compute; split; reflexivity|].
  split; [vm_compute; reflexivity|].
  apply (step_refines demo_app _ _ (ClickDelete 1));
    [exact demo_app_reachable | vm_compute; split; reflexivity | vm_compute; reflexivity].
Defined.

End Refinement.
